(** * Verification of the hackbattle learning-copilot server actions and helpers

    Shallow embedding of:
    - [tryExtractRoadmapFromText] and the roadmap-hiding display of AI messages
      (src/unnamed/part_001 and src/src/app/chat/page.tsx, [ChatMessages]);
    - [generatePractice] (src/src/app/actions/quiz.ts);
    - the chat transcript store, identity resolution and pathway store
      (src/unnamed/part_000).

    JS strings are modelled as [string] (8-bit code units), JSON values as
    [json], numbers as rationals [Q].  [JSON.parse] belongs to the JS runtime,
    not to this repository: the definitions take it as a parameter [parse],
    and the theorems hold for every such function. *)

From Stdlib Require Import String Ascii List ZArith QArith Bool Lia DecimalString.
From Stdlib Require DecimalNat.
From stdpp Require Import base gmap strings sorting.

Import ListNotations.
Open Scope string_scope.
Set Warnings "-register-all".

(* ------------------------------------------------------------------ *)
(** ** JSON values and JS property access *)

Inductive json : Type :=
  | JNull
  | JBool (b : bool)
  | JNum (q : Q)
  | JStr (s : string)
  | JArr (l : list json)
  | JObj (fields : list (string * json)).

(** Property lookup on an object produced by [JSON.parse]: with duplicate keys
    the later value wins. *)
Fixpoint obj_lookup (k : string) (fs : list (string * json)) : option json :=
  match fs with
  | [] => None
  | (k', v) :: r =>
      match obj_lookup k r with
      | Some w => Some w
      | None => if String.eqb k k' then Some v else None
      end
  end.

(** [v?.k]: [None] stands for [undefined]; non-objects have none of the
    property names used by the code. *)
Definition js_get (v : json) (k : string) : option json :=
  match v with
  | JObj fs => obj_lookup k fs
  | _ => None
  end.

(** [typeof v?.k === "string"] *)
Definition is_string_prop (v : json) (k : string) : bool :=
  match js_get v k with Some (JStr _) => true | _ => false end.

(** [v?.k === s] for a string literal [s] *)
Definition prop_is_str (v : json) (k s : string) : bool :=
  match js_get v k with Some (JStr t) => String.eqb t s | _ => false end.

(* ------------------------------------------------------------------ *)
(** ** JS string primitives *)

(** [String.prototype.trim] white space, restricted to 8-bit code units:
    TAB, LF, VT, FF, CR, SPACE and NBSP. *)
Definition is_js_space (c : ascii) : bool :=
  let n := nat_of_ascii c in
  ((9 <=? n) && (n <=? 13) || (n =? 32) || (n =? 160))%nat.

Fixpoint drop_space (l : list ascii) : list ascii :=
  match l with
  | [] => []
  | c :: r => if is_js_space c then drop_space r else l
  end.

Definition trim (s : string) : string :=
  string_of_list_ascii
    (rev (drop_space (rev (drop_space (list_ascii_of_string s))))).

(** [s.indexOf(c)]: the first index of [c], or -1. *)
Fixpoint indexOf_from (s : string) (c : ascii) (i : Z) : Z :=
  match s with
  | EmptyString => -1
  | String d r => if Ascii.eqb d c then i else indexOf_from r c (i + 1)
  end.

Definition indexOf (s : string) (c : ascii) : Z := indexOf_from s c 0.

(** [s.lastIndexOf(c)]: the last index of [c], or -1. *)
Fixpoint lastIndexOf_from (s : string) (c : ascii) (i acc : Z) : Z :=
  match s with
  | EmptyString => acc
  | String d r => lastIndexOf_from r c (i + 1) (if Ascii.eqb d c then i else acc)
  end.

Definition lastIndexOf (s : string) (c : ascii) : Z := lastIndexOf_from s c 0 (-1).

(** [s.slice(a, b)] for [0 <= a], [0 <= b] *)
Definition slice (s : string) (a b : Z) : string :=
  substring (Z.to_nat a) (Z.to_nat b - Z.to_nat a) s.

(** [s.slice(a)] for [0 <= a] *)
Definition slice_from (s : string) (a : Z) : string :=
  substring (Z.to_nat a) (String.length s - Z.to_nat a) s.

(** JS truthiness of a string *)
Definition str_truthy (s : string) : bool := negb (String.eqb s EmptyString).

(** [parts.join(sep)] *)
Fixpoint join (sep : string) (parts : list string) : string :=
  match parts with
  | [] => EmptyString
  | [p] => p
  | p :: r => p ++ sep ++ join sep r
  end.

(* ------------------------------------------------------------------ *)
(** ** Roadmap extraction (tryExtractRoadmapFromText) *)

(** [s?.type === "SUBTOPIC" && typeof s.name === "string"] *)
Definition is_subtopic (s : json) : bool :=
  prop_is_str s "type" "SUBTOPIC" && is_string_prop s "name".

(** [t?.type === "TOPIC" && typeof t.name === "string" &&
     Array.isArray(t.subtopics) && t.subtopics.every(...)] *)
Definition is_topic (t : json) : bool :=
  prop_is_str t "type" "TOPIC" && is_string_prop t "name" &&
  match js_get t "subtopics" with
  | Some (JArr subs) => forallb is_subtopic subs
  | _ => false
  end.

Section Extract.
(** [JSON.parse]: [None] when it throws. *)
Variable parse : string -> option json.

(** Returns the parsed value ([Roadmap]) or [None] ([null]). *)
Definition tryExtractRoadmapFromText (text : string) : option json :=
  let first := indexOf text "[" in
  let last := lastIndexOf text "]" in
  if (first =? -1)%Z || (last =? -1)%Z || (last <=? first)%Z then None
  else
    let json := trim (slice text first (last + 1)) in
    match parse json with
    | None => None
    | Some parsed =>
        match parsed with
        | JArr l => if forallb is_topic l then Some parsed else None
        | _ => None
        end
    end.

Definition roadmap_placeholder : string :=
  "I've created an interactive roadmap for you below. Click on any topic circle to explore its subtopics.".

Definition blank_line : string :=
  String (ascii_of_nat 10) (String (ascii_of_nat 10) EmptyString).

(** The text shown for an AI message in [ChatMessages]. *)
Definition displayed_ai_content (content : string) : string :=
  match tryExtractRoadmapFromText content with
  | Some _ =>
      let first := indexOf content "[" in
      let last := lastIndexOf content "]" in
      if negb (first =? -1)%Z && negb (last =? -1)%Z && (first <? last)%Z then
        let beforeJson := trim (slice content 0 first) in
        let afterJson := trim (slice_from content (last + 1)) in
        let cleanContent :=
          trim (join blank_line (List.filter str_truthy [beforeJson; afterJson])) in
        if str_truthy cleanContent then cleanContent else roadmap_placeholder
      else content
  | None => content
  end.
End Extract.

(* ------------------------------------------------------------------ *)
(** ** A concrete instance of [JSON.parse] for evaluating examples

    A recursive-descent parser for a subset of JSON: literals, strings with
    the escapes other than \u, numbers without exponent, arrays and objects.
    On the inputs it accepts it returns what [JSON.parse] returns; it rejects
    the rest of JSON (and everything [JSON.parse] rejects). *)
Module JsonSubset.
Local Open Scope char_scope.

Definition is_ws (c : ascii) : bool :=
  let n := nat_of_ascii c in ((n =? 32) || (n =? 9) || (n =? 10) || (n =? 13))%nat.

Fixpoint skip_ws (s : string) : string :=
  match s with
  | String c r => if is_ws c then skip_ws r else s
  | EmptyString => s
  end.

(** [s] without the prefix [p], if it starts with it *)
Fixpoint strip_prefix (p s : string) : option string :=
  match p, s with
  | EmptyString, _ => Some s
  | String a p', String b s' => if Ascii.eqb a b then strip_prefix p' s' else None
  | _, _ => None
  end.

Definition digit (c : ascii) : option Z :=
  let n := nat_of_ascii c in
  if ((48 <=? n) && (n <=? 57))%nat then Some (Z.of_nat n - 48)%Z else None.

(** digits as an integer, their count, and the rest *)
Fixpoint digits (s : string) (acc : Z) (k : nat) : Z * nat * string :=
  match s with
  | String c r =>
      match digit c with
      | Some d => digits r (acc * 10 + d)%Z (S k)
      | None => (acc, k, s)
      end
  | EmptyString => (acc, k, s)
  end.

Definition number (s : string) : option (json * string) :=
  let '(neg, s) :=
    match s with String "-" r => (true, r) | _ => (false, s) end in
  match s with
  | String c _ =>
      match digit c with
      | None => None
      | Some d0 =>
          let '(n, k, r) := digits s 0%Z 0%nat in
          if (d0 =? 0)%Z && (1 <? k)%nat then None
          else
            let '(q, r) :=
              match r with
              | String "." r1 =>
                  let '(f, kf, r2) := digits r1 0%Z 0%nat in
                  if (kf =? 0)%nat then (None, r2)
                  else (Some (Qplus (inject_Z n) (Qmake f (Pos.of_nat (10 ^ kf)))), r2)
              | _ => (Some (inject_Z n), r)
              end in
            match q with
            | Some q => Some (JNum (if neg then Qopp q else q), r)
            | None => None
            end
      end
  | EmptyString => None
  end.

(** the double quote character *)
Definition dquote : ascii := ascii_of_nat 34.

Definition escape (c : ascii) : option ascii :=
  if Ascii.eqb c dquote then Some dquote else
  match c with
  | "\" => Some "\"
  | "/" => Some "/"
  | "n" => Some (ascii_of_nat 10)
  | "t" => Some (ascii_of_nat 9)
  | "r" => Some (ascii_of_nat 13)
  | "b" => Some (ascii_of_nat 8)
  | "f" => Some (ascii_of_nat 12)
  | _ => None
  end.

(** the body of a string literal after its opening quote *)
Fixpoint str_body (s : string) : option (string * string) :=
  match s with
  | EmptyString => None
  | String c r =>
      if Ascii.eqb c dquote then Some (EmptyString, r)
      else if Ascii.eqb c "\" then
        match r with
        | String e r' =>
            match escape e, str_body r' with
            | Some c', Some (b, r'') => Some (String c' b, r'')
            | _, _ => None
            end
        | EmptyString => None
        end
      else if (nat_of_ascii c <? 32)%nat then None
      else match str_body r with
           | Some (b, r') => Some (String c b, r')
           | None => None
           end
  end.

Fixpoint value (fuel : nat) (s : string) {struct fuel} : option (json * string) :=
  match fuel with
  | O => None
  | S f =>
      match skip_ws s with
      | String "[" r =>
          match skip_ws r with
          | String "]" r' => Some (JArr [], r')
          | _ => items f r []
          end
      | String "{" r =>
          match skip_ws r with
          | String "}" r' => Some (JObj [], r')
          | _ => members f r []
          end
      | s' =>
          if String.prefix (String dquote EmptyString) s' then
          match str_body (substring 1 (String.length s' - 1) s') with
          | Some (b, r') => Some (JStr b, r')
          | None => None
          end else
          match strip_prefix "null" s' with
          | Some r => Some (JNull, r)
          | None =>
          match strip_prefix "true" s' with
          | Some r => Some (JBool true, r)
          | None =>
          match strip_prefix "false" s' with
          | Some r => Some (JBool false, r)
          | None => number s'
          end end end
      end
  end
with items (fuel : nat) (s : string) (acc : list json) {struct fuel}
    : option (json * string) :=
  match fuel with
  | O => None
  | S f =>
      match value f s with
      | Some (v, r) =>
          match skip_ws r with
          | String "," r' => items f r' (v :: acc)
          | String "]" r' => Some (JArr (rev (v :: acc)), r')
          | _ => None
          end
      | None => None
      end
  end
with members (fuel : nat) (s : string) (acc : list (string * json)) {struct fuel}
    : option (json * string) :=
  match fuel with
  | O => None
  | S f =>
      match skip_ws s with
      | String q r =>
          if negb (Ascii.eqb q dquote) then None else
          match str_body r with
          | Some (k, r1) =>
              match skip_ws r1 with
              | String ":" r2 =>
                  match value f r2 with
                  | Some (v, r3) =>
                      match skip_ws r3 with
                      | String "," r4 => members f r4 ((k, v) :: acc)
                      | String "}" r4 => Some (JObj (rev ((k, v) :: acc)), r4)
                      | _ => None
                      end
                  | None => None
                  end
              | _ => None
              end
          | None => None
          end
      | _ => None
      end
  end.

(** test inputs are written with single quotes standing for double quotes *)
Fixpoint of_squotes (s : string) : string :=
  match s with
  | EmptyString => EmptyString
  | String c r => String (if Ascii.eqb c "'" then dquote else c) (of_squotes r)
  end.

Definition parse (s : string) : option json :=
  match value (4 * String.length s + 4) s with
  | Some (v, r) => match skip_ws r with EmptyString => Some v | _ => None end
  | None => None
  end.
End JsonSubset.

(* ------------------------------------------------------------------ *)
(** ** The extractor as the spec words it (4.1), for comparison *)

(** position of the first [c] in [s] *)
Fixpoint first_occurrence (c : ascii) (s : string) : option nat :=
  match s with
  | EmptyString => None
  | String d r => if Ascii.eqb d c then Some 0%nat else option_map S (first_occurrence c r)
  end.

(** position of the last [c] in [s] *)
Fixpoint last_occurrence (c : ascii) (s : string) : option nat :=
  match s with
  | EmptyString => None
  | String d r =>
      match last_occurrence c r with
      | Some k => Some (S k)
      | None => if Ascii.eqb d c then Some 0%nat else None
      end
  end.

(** the span from the first [\[] through the last [\]], trimmed, when the
    closing bracket comes strictly after the opening one *)
Definition bracket_span (text : string) : option string :=
  match first_occurrence "[" text, last_occurrence "]" text with
  | Some i, Some j =>
      if (i <? j)%nat then Some (trim (substring i (S j - i) text)) else None
  | _, _ => None
  end.

(** Roadmap extraction following the spec's algorithm. *)
Definition extract_roadmap_spec (parse : string -> option json) (text : string)
    : option json :=
  match bracket_span text with
  | None => None
  | Some span =>
      match parse span with
      | Some (JArr l) => if forallb is_topic l then Some (JArr l) else None
      | _ => None
      end
  end.

(** The prose around an extracted roadmap, as the spec describes it: the
    trimmed prefix and suffix, the non-empty ones joined by a blank line; the
    code falls back to [roadmap_placeholder] when both are empty. *)
Definition prose_around (beforeJson afterJson : string) : string :=
  match beforeJson, afterJson with
  | EmptyString, EmptyString => roadmap_placeholder
  | EmptyString, _ => afterJson
  | _, EmptyString => beforeJson
  | _, _ => beforeJson ++ blank_line ++ afterJson
  end.

(* ------------------------------------------------------------------ *)
(** ** Practice generation (generatePractice, quiz.ts) *)

Record GeneratedPractice : Type := {
  mcqs : list json;
  texts : list json
}.

Definition empty_practice : GeneratedPractice := {| mcqs := []; texts := [] |}.

Record GeneratePracticeInput : Type := {
  topic : string;
  subtopic : string;
  roadmap : option json;   (** [None]: undefined *)
  numMcqs : option Z;      (** [None]: undefined *)
  numTexts : option Z
}.

(** [resp.response.text()]: the text, or the error it throws *)
Inductive sdk_response : Type :=
  | response_text (t : string)
  | text_throws (e : string).

(** [await model.generateContent(...)]: resolved, or rejected (network
    failure, HTTP error, ...) *)
Inductive sdk_outcome : Type :=
  | sdk_resolved (r : sdk_response)
  | sdk_rejected (e : string).

(** The settled promise of an async server action. *)
Inductive promise (A : Type) : Type :=
  | Resolved (a : A)
  | Rejected (e : string).
Arguments Resolved {A} a.
Arguments Rejected {A} e.

(** [Number.isInteger] on a rational *)
Definition is_integer (q : Q) : bool := (Z.modulo (Qnum q) (Zpos (Qden q)) =? 0)%Z.

(** the MCQ filter of generatePractice *)
Definition mcq_ok (q : json) : bool :=
  is_string_prop q "question" &&
  match js_get q "options" with
  | Some (JArr os) => (length os =? 4)%nat
  | _ => false
  end &&
  match js_get q "correctIndex" with
  | Some (JNum n) => is_integer n && Qle_bool 0 n && negb (Qle_bool 4 n)
  | _ => false
  end.

(** the short-answer filter of generatePractice *)
Definition text_ok (t : json) : bool := is_string_prop t "prompt".

(** [Math.max(1, Math.min(n ?? d, hi))] on integers *)
Definition clamp_count (n : option Z) (d hi : Z) : Z :=
  Z.max 1 (Z.min (match n with Some k => k | None => d end) hi).

(** [Array.isArray(v?.k) ? v.k.filter(ok).slice(0, n) : []] *)
Definition filtered_prop (v : json) (k : string) (ok : json -> bool) (n : Z) : list json :=
  match js_get v k with
  | Some (JArr l) => firstn (Z.to_nat n) (List.filter ok l)
  | _ => []
  end.

Section Practice.
Variable parse : string -> option json.
(** the instruction template literal, over [numMcqs] and [numTexts] *)
Variable instruction : Z -> Z -> string.
(** [JSON.stringify] *)
Variable stringify : json -> string.

Definition practice_payload (input : GeneratePracticeInput) : json :=
  JObj [("topic", JStr (topic input)); ("subtopic", JStr (subtopic input));
        ("roadmap", match roadmap input with
                    | None | Some JNull => JArr []
                    | Some r => r
                    end)].

Definition practice_prompt (input : GeneratePracticeInput) : string :=
  instruction (clamp_count (numMcqs input) 3 6) (clamp_count (numTexts input) 2 4)
    ++ blank_line ++ "INPUT:" ++ String (ascii_of_nat 10) EmptyString
    ++ stringify (practice_payload input).

(** [apiKey]: [process.env.GOOGLE_API_KEY]; [generateContent]: the SDK call
    on the prompt text. *)
Definition generatePractice (apiKey : option string)
    (generateContent : string -> sdk_outcome) (input : GeneratePracticeInput)
    : promise GeneratedPractice :=
  match apiKey with
  | None | Some EmptyString => Resolved empty_practice
  | Some _ =>
      let numMcqs := clamp_count (numMcqs input) 3 6 in
      let numTexts := clamp_count (numTexts input) 2 4 in
      match generateContent (practice_prompt input) with
      | sdk_rejected e => Rejected e
      | sdk_resolved (text_throws e) => Rejected e
      | sdk_resolved (response_text t) =>
          let raw := trim t in
          match parse raw with
          | None => Resolved empty_practice
          | Some parsed =>
              Resolved {| mcqs := filtered_prop parsed "mcqs" mcq_ok numMcqs;
                          texts := filtered_prop parsed "texts" text_ok numTexts |}
          end
      end
  end.
End Practice.

(** Example data for generatePractice. *)
Definition practice_input_example : GeneratePracticeInput :=
  {| topic := "Graphs"; subtopic := "BFS"; roadmap := None;
     numMcqs := None; numTexts := Some 1%Z |}.

Definition practice_reply_example : string :=
  JsonSubset.of_squotes
    "{'mcqs':[{'question':'Q1','options':['a','b','c','d'],'correctIndex':1},{'question':'Q2','options':['a','b','c'],'correctIndex':0},{'question':'Q3','options':['a','b','c','d'],'correctIndex':4}],'texts':[{'context':'x'},{'prompt':'Explain BFS'},{'prompt':'Explain DFS'}]}".

(* ------------------------------------------------------------------ *)
(** ** The chat transcript store (src/unnamed/part_000)

    The database is explicit state: users in creation order, chats by id,
    pathways, the next fresh id and the clock ([Date.now()]).  An action is
    a state-passing function that returns a value or throws; writes made
    before a throw stay, except inside [prisma.$transaction]. *)

Record User : Type := {
  user_id : nat;
  email : option string;
  name : option string
}.

(** [ChatMessage]; [msg_type] is ["user"] or ["ai"] *)
Record ChatMessage : Type := {
  msg_id : string;
  msg_type : string;
  content : string;
  timestamp : Z
}.

Record ChatEvent : Type := {
  ev_type : string;
  ts : Z;
  ev_data : option json
}.

(** [ChatMeta]: each key may be absent ([None]); a [null] roadmap is
    [Some JNull]. *)
Record ChatMeta : Type := {
  messages : option (list ChatMessage);
  meta_roadmap : option json;
  ui : option (gmap string json);
  events : option (list ChatEvent)
}.

Definition empty_meta : ChatMeta :=
  {| messages := None; meta_roadmap := None; ui := None; events := None |}.

Record Chat : Type := {
  userId : nat;
  title : option string;
  meta : option ChatMeta;
  deletedAt : option Z;
  startedAt : Z;
  updatedAt : Z
}.

Inductive PathwayStatus : Type := DRAFT | ACTIVE | COMPLETED | ARCHIVED.

Record Pathway : Type := {
  pathway_id : nat;
  pathway_userId : nat;
  chatId : string;
  pathway_title : option string;
  status : PathwayStatus;
  planSpec : json
}.

Record db : Type := {
  users : list User;
  chats : gmap string Chat;
  pathways : list Pathway;
  next_id : nat;
  now : Z
}.

(** The external session ([session?.user]): at most an email and a name. *)
Record Session : Type := {
  s_email : option string;
  s_name : option string
}.

Inductive outcome (A : Type) : Type :=
  | Ok (a : A)
  | Throw (e : string).
Arguments Ok {A} a.
Arguments Throw {A} e.

Definition M (A : Type) : Type := db -> outcome A * db.

Definition ret {A} (a : A) : M A := fun s => (Ok a, s).

Definition bind {A B} (m : M A) (k : A -> M B) : M B :=
  fun s => match m s with
           | (Ok a, s') => k a s'
           | (Throw e, s') => (Throw e, s')
           end.

Definition throw {A} (e : string) : M A := fun s => (Throw e, s).

Definition gets {A} (f : db -> A) : M A := fun s => (Ok (f s), s).

Definition modify (f : db -> db) : M unit := fun s => (Ok tt, f s).

(** [prisma.$transaction]: a throw rolls the writes back. *)
Definition transaction {A} (m : M A) : M A :=
  fun s => match m s with
           | (Ok a, s') => (Ok a, s')
           | (Throw e, _) => (Throw e, s)
           end.

Notation "x <- m ;; k" := (bind m (fun x => k))
  (at level 100, m at next level, right associativity).
Notation "m ;;; k" := (bind m (fun _ => k)) (at level 100, right associativity).

Definition set_users (us : list User) (s : db) : db :=
  {| users := us; chats := chats s; pathways := pathways s; next_id := next_id s; now := now s |}.
Definition set_chats (cs : gmap string Chat) (s : db) : db :=
  {| users := users s; chats := cs; pathways := pathways s; next_id := next_id s; now := now s |}.
Definition set_pathways (ps : list Pathway) (s : db) : db :=
  {| users := users s; chats := chats s; pathways := ps; next_id := next_id s; now := now s |}.
Definition bump_id (s : db) : db :=
  {| users := users s; chats := chats s; pathways := pathways s; next_id := S (next_id s); now := now s |}.

(** a fresh id, as the ORM assigns at creation *)
Definition fresh_id : M nat := fun s => (Ok (next_id s), bump_id s).

Definition opt_eqb (a : option string) (b : string) : bool :=
  match a with Some a' => String.eqb a' b | None => false end.

(** [x?.trim() || null] *)
Definition trim_or_null (x : option string) : option string :=
  match x with
  | Some v => let t := trim v in if String.eqb t EmptyString then None else Some t
  | None => None
  end.

(** JS truthiness of an optional string *)
Definition opt_truthy (x : option string) : bool :=
  match x with Some v => str_truthy v | None => false end.

(** ** Users *)

(** [prisma.user.findFirst({ where: { email } })] *)
Definition find_user_by_email (e : string) : M (option User) :=
  gets (fun s => List.find (fun u => opt_eqb (email u) e) (users s)).

(** [prisma.user.findFirst({ where: { name }, orderBy: { createdAt: "desc" } })]:
    users are kept in creation order, so the most recent is the last. *)
Definition find_last_user_by_name (n : string) : M (option User) :=
  gets (fun s => List.find (fun u => opt_eqb (name u) n) (rev (users s))).

(** [prisma.user.create] *)
Definition create_user (e n : option string) : M nat :=
  i <- fresh_id ;;
  modify (fun s => set_users (users s ++ [{| user_id := i; email := e; name := n |}])%list s) ;;;
  ret i.

Definition rename_user (i : nat) (n : string) (u : User) : User :=
  if Nat.eqb (user_id u) i then {| user_id := user_id u; email := email u; name := Some n |}
  else u.

(** [prisma.user.upsert({ where: { email: e }, update: { name? }, create: { email: e, name } })] *)
Definition upsert_user_by_email (e : string) (update_name : option string)
    (create_name : option string) : M nat :=
  found <- find_user_by_email e ;;
  match found with
  | Some u =>
      match update_name with
      | Some n => modify (fun s => set_users (map (rename_user (user_id u) n) (users s)) s)
      | None => ret tt
      end ;;;
      ret (user_id u)
  | None => create_user (Some e) create_name
  end.

Definition guest_email : string := "guest@example.com".

(** [ensureGuestUserId] *)
Definition ensureGuestUserId : M nat :=
  upsert_user_by_email guest_email None (Some "Guest").

(** [resolveUserIdFromSession] (lines 321-363, the variant that completes
    every branch) *)
Definition resolveUserIdFromSession (session : Session) : M nat :=
  let email := trim_or_null (s_email session) in
  let name := trim_or_null (s_name session) in
  match email with
  | Some e => upsert_user_by_email e name name
  | None =>
      match name with
      | Some n =>
          existing <- find_last_user_by_name n ;;
          match existing with
          | Some u => ret (user_id u)
          | None => create_user None (Some n)
          end
      | None => ensureGuestUserId
      end
  end.

(** [whoami]: tests the raw [session?.user?.name] *)
Definition whoami (session : Session) : M nat :=
  if opt_truthy (s_name session) then resolveUserIdFromSession session
  else ensureGuestUserId.

(** ** Chats *)

Definition not_owned_msg : string := "Chat not found or not owned by user.".

Inductive ActionResult : Type :=
  | ResultOk
  | ResultErr (error : string).

(** [prisma.chat.findUnique({ where: { id } })] *)
Definition find_chat (cid : string) : M (option Chat) := gets (fun s => chats s !! cid).

(** [prisma.chat.update({ where: { id }, data })]: throws on a missing row *)
Definition update_chat (cid : string) (f : Chat -> Chat) : M unit :=
  fun s => match chats s !! cid with
           | Some c => (Ok tt, set_chats (<[cid := f c]> (chats s)) s)
           | None => (Throw "Record to update not found.", s)
           end.

Definition with_title (t : option string) (c : Chat) : Chat :=
  {| userId := userId c; title := t; meta := meta c; deletedAt := deletedAt c;
     startedAt := startedAt c; updatedAt := updatedAt c |}.
Definition with_meta (m : ChatMeta) (c : Chat) : Chat :=
  {| userId := userId c; title := title c; meta := Some m; deletedAt := deletedAt c;
     startedAt := startedAt c; updatedAt := updatedAt c |}.
Definition with_deletedAt (d : option Z) (c : Chat) : Chat :=
  {| userId := userId c; title := title c; meta := meta c; deletedAt := d;
     startedAt := startedAt c; updatedAt := updatedAt c |}.

(** [assertOwnChat] *)
Definition assertOwnChat (cid : string) (uid : nat) : M unit :=
  c <- find_chat cid ;;
  match c with
  | Some c => if Nat.eqb (userId c) uid then ret tt else throw not_owned_msg
  | None => throw not_owned_msg
  end.

Record ChatListItem : Type := {
  item_id : string;
  item_title : option string;
  item_updatedAt : Z;
  item_startedAt : Z
}.

(** [orderBy: { updatedAt: "desc" }] *)
Definition updated_after (a b : ChatListItem) : Prop := (item_updatedAt b <= item_updatedAt a)%Z.

#[local] Instance updated_after_dec : RelDecision updated_after :=
  fun a b => Z.le_dec (item_updatedAt b) (item_updatedAt a).

(** [listChats]: the caller's chats with [deletedAt: null], most recently
    updated first *)
Definition listChats (session : Session) : M (list ChatListItem) :=
  uid <- whoami session ;;
  gets (fun s =>
    merge_sort updated_after
      (map (fun '(i, c) => {| item_id := i; item_title := title c;
                              item_updatedAt := updatedAt c; item_startedAt := startedAt c |})
         (List.filter (fun '(_, c) => Nat.eqb (userId c) uid &&
                                       match deletedAt c with None => true | Some _ => false end)
            (map_to_list (chats s))))).

Record ChatSnapshot : Type := {
  snap_id : string;
  snap_title : option string;
  snap_messages : list ChatMessage;
  snap_roadmap : json;
  snap_updatedAt : Z;
  snap_startedAt : Z
}.

(** [getChatSnapshot] *)
Definition getChatSnapshot (session : Session) (cid : string) : M ChatSnapshot :=
  uid <- whoami session ;;
  assertOwnChat cid uid ;;;
  c <- find_chat cid ;;
  match c with
  | Some c =>
      let m := match meta c with Some m => m | None => empty_meta end in
      ret {| snap_id := cid; snap_title := title c;
             snap_messages := match messages m with Some l => l | None => [] end;
             snap_roadmap := match meta_roadmap m with Some r => r | None => JNull end;
             snap_updatedAt := updatedAt c; snap_startedAt := startedAt c |}
  | None => throw "Cannot read properties of null (reading 'id')"
  end.

(** the meta blob [appendTurn] writes *)
Definition append_meta (meta0 : ChatMeta) (userMsg aiMsg : ChatMessage)
    (roadmap : option json) (uiPatch : option (gmap string json)) (t : Z) : ChatMeta :=
  {| messages := Some (match messages meta0 with Some l => l | None => [] end ++ [userMsg; aiMsg])%list;
     meta_roadmap := match roadmap with Some r => Some r | None => meta_roadmap meta0 end;
     ui := match uiPatch with
           | Some p => Some (p ∪ match ui meta0 with Some u => u | None => ∅ end)
           | None => ui meta0
           end;
     events := Some (match events meta0 with Some l => l | None => [] end ++
                     [{| ev_type := "appendTurn"; ts := t;
                         ev_data := Some (JObj [("len", JNum (inject_Z (Z.of_nat
                                                   (String.length (content userMsg)))))]) |}])%list |}.

(** [appendTurn]; [roadmap = None] is [undefined], [Some JNull] is [null] *)
Definition appendTurn (session : Session) (cid : string) (userMsg aiMsg : ChatMessage)
    (roadmap : option json) (uiPatch : option (gmap string json)) : M ActionResult :=
  uid <- whoami session ;;
  assertOwnChat cid uid ;;;
  transaction (
    current <- find_chat cid ;;
    t <- gets now ;;
    let meta0 := match current with
                 | Some c => match meta c with Some m => m | None => empty_meta end
                 | None => empty_meta
                 end in
    let nextMeta := append_meta meta0 userMsg aiMsg roadmap uiPatch t in
    let msgs := match messages nextMeta with Some l => l | None => [] end in
    let maybeTitle : option (option string) :=
      if negb (match current with Some c => opt_truthy (title c) | None => false end) &&
         negb (Nat.eqb (length msgs) 0)
      then Some (match List.find (fun m => String.eqb (msg_type m) "user") msgs with
                 | Some m => Some (substring 0 60 (content m))
                 | None => None
                 end)
      else None in
    update_chat cid (fun c =>
      with_meta nextMeta (match maybeTitle with Some t => with_title t c | None => c end))) ;;;
  ret ResultOk.

(** [saveChatSnapshot] *)
Definition saveChatSnapshot (session : Session) (cid : string) (msgs : list ChatMessage)
    (roadmap : option json) (titleFallback : option string) : M ActionResult :=
  uid <- resolveUserIdFromSession session ;;
  chat <- find_chat cid ;;
  match chat with
  | Some chat =>
      if Nat.eqb (userId chat) uid then
        update_chat cid (fun c =>
          with_meta {| messages := Some msgs;
                       meta_roadmap := Some (match roadmap with Some r => r | None => JNull end);
                       ui := None; events := None |}
            (if opt_truthy titleFallback && negb (opt_truthy (title chat))
             then with_title titleFallback c else c)) ;;;
        ret ResultOk
      else ret (ResultErr not_owned_msg)
  | None => ret (ResultErr not_owned_msg)
  end.

(** [renameChat] *)
Definition renameChat (session : Session) (cid : string) (t : string) : M ActionResult :=
  uid <- whoami session ;;
  assertOwnChat cid uid ;;;
  update_chat cid (with_title (Some t)) ;;;
  ret ResultOk.

(** [deleteChat] *)
Definition deleteChat (session : Session) (cid : string) : M ActionResult :=
  uid <- whoami session ;;
  assertOwnChat cid uid ;;;
  t <- gets now ;;
  update_chat cid (with_deletedAt (Some t)) ;;;
  ret ResultOk.

(** ** Pathways *)

Inductive PathwayResult : Type :=
  | PathwaySaved (pathwayId : nat) (created : bool)
  | PathwayErr (error : string).

(** the caller as [savePlanAsPathway] resolves it: the user with the
    session's email if any ([undefined] when none has it), else the guest *)
Definition pathway_user_id (session : Session) : M (option nat) :=
  if opt_truthy (s_email session) then
    u <- find_user_by_email (match s_email session with Some e => e | None => EmptyString end) ;;
    ret (option_map user_id u)
  else
    i <- ensureGuestUserId ;;
    ret (Some i).

Definition update_pathway (i : nat) (t : option string) (st : option PathwayStatus)
    (plan : json) (p : Pathway) : Pathway :=
  if Nat.eqb (pathway_id p) i then
    {| pathway_id := pathway_id p; pathway_userId := pathway_userId p; chatId := chatId p;
       pathway_title := match t with Some _ => t | None => pathway_title p end;
       status := match st with Some x => x | None => status p end;
       planSpec := plan |}
  else p.

(** [prisma.pathway.findUnique({ where: { chatId } })] *)
Definition find_pathway (cid : string) : M (option Pathway) :=
  gets (fun s => List.find (fun p => String.eqb (chatId p) cid) (pathways s)).

(** [savePlanAsPathway]; [t = None] is a title [undefined] or [null] *)
Definition savePlanAsPathway (session : Session) (cid : string) (plan : json)
    (t : option string) (st : option PathwayStatus) : M PathwayResult :=
  uid <- pathway_user_id session ;;
  chat <- find_chat cid ;;
  match chat, uid with
  | Some chat, Some u =>
      if Nat.eqb (userId chat) u then
        existing <- find_pathway cid ;;
        match existing with
        | Some p =>
            modify (fun s => set_pathways (map (update_pathway (pathway_id p) t st plan)
                                               (pathways s)) s) ;;;
            ret (PathwaySaved (pathway_id p) false)
        | None =>
            i <- fresh_id ;;
            modify (fun s => set_pathways (pathways s ++ 
              [{| pathway_id := i; pathway_userId := u; chatId := cid; pathway_title := t;
                  status := match st with Some x => x | None => DRAFT end;
                  planSpec := plan |}])%list s) ;;;
            ret (PathwaySaved i true)
        end
      else ret (PathwayErr not_owned_msg)
  | _, _ => ret (PathwayErr not_owned_msg)
  end.

(** ** Frame properties of the store actions

    [mk_users us n s] is [s] with its users and id counter replaced.  An
    action is [users_only] when it reads and writes only those two fields:
    started from any state with the same users and counter it returns the
    same outcome and leaves the chats, pathways and clock as they were. *)
Definition mk_users (us : list User) (n : nat) (s : db) : db :=
  {| users := us; chats := chats s; pathways := pathways s; next_id := n; now := now s |}.

Definition users_only {A} (m : M A) : Prop :=
  forall s, exists (o : outcome A) us n,
    forall s0, users s0 = users s -> next_id s0 = next_id s -> m s0 = (o, mk_users us n s0).

(** The soft-delete marker of chat [cid] set to [d] (what [deleteChat] writes). *)
Definition set_deleted (cid : string) (d : option Z) (s : db) : db :=
  set_chats (alter (with_deletedAt d) cid (chats s)) s.

Definition map_state {A} (f : db -> db) (r : outcome A * db) : outcome A * db :=
  (fst r, f (snd r)).

(** [m] behaves the same on a chat whether or not its marker is set. *)
Definition deleted_commutes {A} (cid : string) (d : option Z) (m : M A) : Prop :=
  forall s, m (set_deleted cid d s) = map_state (set_deleted cid d) (m s).

(** Pathway rows of a chat. *)
Definition rows_of (cid : string) (ps : list Pathway) : list Pathway :=
  List.filter (fun p => String.eqb (chatId p) cid) ps.

(** ** Example store *)

Definition msg_user_example : ChatMessage :=
  {| msg_id := "1"; msg_type := "user"; content := "hello there"; timestamp := 1 |}.
Definition msg_ai_example : ChatMessage :=
  {| msg_id := "2"; msg_type := "ai"; content := "hi"; timestamp := 2 |}.
Definition meta_example : ChatMeta :=
  {| messages := Some [msg_user_example]; meta_roadmap := Some JNull;
     ui := Some (<["tab" := JStr "a"]> ∅); events := Some [] |}.
Definition chat_example : Chat :=
  {| userId := 0; title := None; meta := Some meta_example; deletedAt := None;
     startedAt := 5; updatedAt := 6 |}.
(** user 0 is alice@x.io, owner of chat "c1" *)
Definition db_example : db :=
  {| users := [{| user_id := 0; email := Some "alice@x.io"; name := Some "Alice" |}];
     chats := <["c1" := chat_example]> ∅; pathways := []; next_id := 1; now := 100 |}.
Definition alice : Session := {| s_email := Some "alice@x.io"; s_name := Some "Alice" |}.
Definition alice_email_only : Session := {| s_email := Some "alice@x.io"; s_name := None |}.
Definition bob : Session := {| s_email := Some "bob@x.io"; s_name := Some "Bob" |}.

(** ** Creating a chat ([createChat], src/unnamed/part_000 lines 133-156) *)

(** [prisma.chat.create({ data })] at the id the ORM generates for the new
    row; an id already taken violates the primary key. *)
Definition create_chat (cid : string) (c : Chat) : M unit :=
  fun s => match chats s !! cid with
           | Some _ => (Throw "Unique constraint failed on the fields: (`id`)", s)
           | None => (Ok tt, set_chats (<[cid := c]> (chats s)) s)
           end.

(** [createChat]: [newId] is the id the ORM generates for the row; [t = None]
    is a title [undefined] or [null]; [None] for [initialMessages] or
    [initialRoadmap] is [undefined].  The row's [startedAt] and [updatedAt]
    take the creation time.  [userSubjectId] is not a field of the model:
    no modelled action reads it.  The result is [chat.id]. *)
Definition createChat (session : Session) (newId : string) (t : option string)
    (initialMessages : option (list ChatMessage)) (initialRoadmap : option json) : M string :=
  uid <- whoami session ;;
  ts0 <- gets now ;;
  create_chat newId
    {| userId := uid; title := t;
       meta := Some {| messages := Some (match initialMessages with Some l => l | None => [] end);
                       meta_roadmap := Some (match initialRoadmap with Some r => r | None => JNull end);
                       ui := None;
                       events := Some [{| ev_type := "createChat"; ts := ts0; ev_data := None |}] |};
       deletedAt := None; startedAt := ts0; updatedAt := ts0 |} ;;;
  ret newId.

(** ** Store invariants *)

(** Every user id is below the id counter: the ids handed out are fresh. *)
Definition ids_below (s : db) : Prop :=
  Forall (fun u => (user_id u < next_id s)%nat) (users s).

(** The id and email of each user, in order. *)
Definition user_keys (us : list User) : list (nat * option string) :=
  map (fun u => (user_id u, email u)) us.

(** The emails in use, in order. *)
Definition user_emails (us : list User) : list string := omap email us.

(** [s'] has the pathways of [s] and the same rows as [s] for every chat
    other than [cid]. *)
Definition agrees_off (cid : string) (s s' : db) : Prop :=
  pathways s' = pathways s /\ forall j, j <> cid -> chats s' !! j = chats s !! j.

(** [m] writes no chat other than [cid] and no pathway. *)
Definition chat_local {A} (cid : string) (m : M A) : Prop :=
  forall s, agrees_off cid s (snd (m s)).

(** The chat ids of the pathway rows. *)
Definition pathway_chats (ps : list Pathway) : list string := map chatId ps.

(** ** Starting a chat from the chat list page ([StartChatPage.start],
    src/src/app/chat/page.tsx lines 873-889) *)

(** [title.trim() || "New Chat"] *)
Definition start_title (title : string) : string :=
  let t := trim title in if str_truthy t then t else "New Chat".

(** [start]: the path it navigates to, [/chat/<id>]; a throw is the
    message it shows. *)
Definition StartChatPage_start (session : Session) (newId : string) (title : string)
    : M string :=
  res <- createChat session newId (Some (start_title title)) (Some []) (Some JNull) ;;
  ret ("/chat/" ++ res).

(** ** Chat input handlers of the client pages

    Each handler is a step on the page's React state.  Between two events
    the page re-renders, so a handler reads the state left by the previous
    events. *)

(** [Chatwindow] (src/unnamed/part_002): messages [{ role, text }] and the
    input field. *)
Record CwMessage : Type := {
  role : string;
  text : string
}.

Record CwState : Type := {
  cw_messages : list CwMessage;
  cw_input : string
}.

(** [Chatwindow.handleSend] *)
Definition Chatwindow_handleSend (st : CwState) : CwState :=
  if negb (str_truthy (trim (cw_input st))) then st
  else {| cw_messages := cw_messages st ++ [{| role := "user"; text := cw_input st |}];
          cw_input := EmptyString |}.

(** typing into the input ([setInput]), or pressing Send / Enter *)
Inductive cw_event : Type :=
  | CwType (v : string)
  | CwSend.

Definition cw_step (st : CwState) (e : cw_event) : CwState :=
  match e with
  | CwType v => {| cw_messages := cw_messages st; cw_input := v |}
  | CwSend => Chatwindow_handleSend st
  end.

Definition cw_run (st : CwState) (evs : list cw_event) : CwState := fold_left cw_step evs st.

(** the events that press Send *)
Definition is_send (e : cw_event) : bool := match e with CwSend => true | CwType _ => false end.

(** [Dashboard] (src/src/app/dashboard/page.tsx): messages with a numeric
    id, the input field, the typing flag and the AI replies whose
    [setTimeout] has not fired yet, oldest first (all use the same delay).
    The [timestamp] and [suggestions] fields are not modelled. *)
Record DashMessage : Type := {
  dm_id : Z;
  dm_type : string;
  dm_content : string
}.

Record DashState : Type := {
  d_messages : list DashMessage;
  d_current : string;
  d_typing : bool;
  d_timers : list DashMessage
}.

Definition dash_reply_text : string :=
  "I understand you're asking about that topic. Let me provide a detailed explanation adapted to your visual learning style with step-by-step breakdowns and examples.".

(** [handleSendMessage]: both ids are computed from the [messages] of the
    render the handler belongs to. *)
Definition Dashboard_handleSendMessage (st : DashState) : DashState :=
  if negb (str_truthy (trim (d_current st))) then st
  else
    let n := Z.of_nat (length (d_messages st)) in
    {| d_messages := d_messages st ++
         [{| dm_id := n + 1; dm_type := "user"; dm_content := d_current st |}];
       d_current := EmptyString;
       d_typing := true;
       d_timers := d_timers st ++
         [{| dm_id := n + 2; dm_type := "ai"; dm_content := dash_reply_text |}] |}.

(** the oldest pending [setTimeout] callback runs *)
Definition dash_fire (st : DashState) : DashState :=
  match d_timers st with
  | [] => st
  | a :: rest => {| d_messages := d_messages st ++ [a]; d_current := d_current st;
                    d_typing := false; d_timers := rest |}
  end.

Inductive dash_event : Type :=
  | DashType (v : string)
  | DashSend
  | DashTimer.

Definition dash_step (st : DashState) (e : dash_event) : DashState :=
  match e with
  | DashType v => {| d_messages := d_messages st; d_current := v;
                     d_typing := d_typing st; d_timers := d_timers st |}
  | DashSend => Dashboard_handleSendMessage st
  | DashTimer => dash_fire st
  end.

Definition dash_run (st : DashState) (evs : list dash_event) : DashState :=
  fold_left dash_step evs st.

(** the initial state of the page: one greeting with id 1 *)
Definition Dashboard_init : DashState :=
  {| d_messages := [{| dm_id := 1; dm_type := "ai";
                       dm_content := "Hello! I'm your adaptive learning AI assistant. I can help you with mathematics, physics, chemistry, and adapt my explanations to your learning style. What would you like to learn about today?" |}];
     d_current := EmptyString; d_typing := false; d_timers := [] |}.

(** the ids are the 1-based positions *)
Definition ids_are_positions (ms : list DashMessage) : Prop :=
  map dm_id ms = map Z.of_nat (seq 1 (length ms)).

(** typing each text, sending it, and the reply arriving before the next *)
Definition dash_rounds (vs : list string) : list dash_event :=
  flat_map (fun v => [DashType v; DashSend; DashTimer]) vs.

(** The chat page ([Page], src/src/app/chat/page.tsx lines 652-740): its
    messages, input field, typing flag and roadmap panel. *)
Record PageState : Type := {
  p_messages : list ChatMessage;
  p_current : string;
  p_typing : bool;
  p_roadmap : option json
}.

(** [await callBackend(q)]: the reply text, or the [message] of the error
    it throws ([None]: no message). *)
Inductive backend_result : Type :=
  | backend_reply (t : string)
  | backend_error (msg : option string).

(** [handleSend], as the state stands once [callBackend] has settled with
    no other event in between; [userMsgId], [aiMsgId] are the
    [crypto.randomUUID()] values and [t1], [t2] the [Date.now()] values. *)
Definition chat_page_handleSend (parse : string -> option json)
    (callBackend : string -> backend_result) (userMsgId aiMsgId : string) (t1 t2 : Z)
    (st : PageState) : PageState :=
  let content0 := trim (p_current st) in
  if negb (str_truthy content0) then st
  else
    let userMsg := {| msg_id := userMsgId; msg_type := "user"; content := content0;
                      timestamp := t1 |} in
    match callBackend content0 with
    | backend_reply reply =>
        {| p_messages := p_messages st ++
             [userMsg; {| msg_id := aiMsgId; msg_type := "ai"; content := reply;
                          timestamp := t2 |}];
           p_current := EmptyString; p_typing := false;
           p_roadmap := tryExtractRoadmapFromText parse reply |}
    | backend_error e =>
        {| p_messages := p_messages st ++
             [userMsg; {| msg_id := aiMsgId; msg_type := "ai";
                          content := "Could not reach server: " ++
                                     match e with Some m => m | None => "Unknown error" end;
                          timestamp := t2 |}];
           p_current := EmptyString; p_typing := false;
           p_roadmap := p_roadmap st |}
    end.

(** ** Decoding the chat list ([normalizeChats], src/src/app/chat/page.tsx
    lines 829-843) *)

(** JS truthiness of a JSON value *)
Definition js_truthy (v : json) : bool :=
  match v with
  | JNull => false
  | JBool b => b
  | JNum q => negb (Qeq_bool q 0)
  | JStr s => str_truthy s
  | JArr _ | JObj _ => true
  end.

(** [(payload && Array.isArray(payload.items) && payload.items) ||
     (Array.isArray(payload) && payload[1]) || []] *)
Definition raw_list (payload : json) : json :=
  match (if js_truthy payload then js_get payload "items" else None) with
  | Some (JArr l) => JArr l
  | _ =>
      match payload with
      | JArr l =>
          match nth_error l 1 with
          | Some v => if js_truthy v then v else JArr []
          | None => JArr []
          end
      | _ => JArr []
      end
  end.

Section Normalize.
(** [decodeDate] parses dates with the JS [Date] object; its results are
    kept abstract. *)
Variable D : Type.
Variable decodeDate : option json -> D.

Record ChatRow : Type := {
  row_id : option json;
  row_title : json;
  row_startedAt : D;
  row_updatedAt : D
}.

(** the [map] callback: reading [c.id] on [null] throws ([None]) *)
Definition normalize_row (c : json) : option ChatRow :=
  match c with
  | JNull => None
  | _ => Some {| row_id := js_get c "id";
                 row_title := match js_get c "title" with
                              | Some JNull | None => JNull
                              | Some v => v
                              end;
                 row_startedAt := decodeDate (js_get c "startedAt");
                 row_updatedAt := decodeDate (js_get c "updatedAt") |}
  end.

(** [normalizeChats]: [None] when it throws ([.map] of a value that is not
    an array, or a [null] element). *)
Definition normalizeChats (payload : json) : option (list ChatRow) :=
  match raw_list payload with
  | JArr l => mapM normalize_row l
  | _ => None
  end.
End Normalize.
Arguments row_id {D} _.
Arguments row_title {D} _.
Arguments row_startedAt {D} _.
Arguments row_updatedAt {D} _.

(** ** The roadmap graph ([InteractiveRoadmap]'s [useMemo],
    src/src/app/chat/page.tsx lines 184-218, src/unnamed/part_001 lines
    190-225) *)

(** [`topic_${i}`] *)
Definition topic_id (i : nat) : string :=
  "topic_" ++ DecimalString.NilZero.string_of_uint (Nat.to_uint i).

Record GraphNode : Type := {
  node_id : string;
  node_label : option json;   (** [topic.name] *)
  node_index : nat;
  node_x : Z;
  node_y : Z
}.

Record GraphLink : Type := {
  source : string;
  target : string
}.

(** the [forEach] loop from index [i] on *)
Fixpoint roadmap_graph_from (i : nat) (roadmap : list json) : list GraphNode * list GraphLink :=
  match roadmap with
  | [] => ([], [])
  | topic0 :: rest =>
      let '(n, l) := roadmap_graph_from (S i) rest in
      ({| node_id := topic_id i; node_label := js_get topic0 "name"; node_index := i;
          node_x := 100 + Z.of_nat i * 180; node_y := 100 |} :: n,
       ((if Nat.ltb 0 i then [{| source := topic_id (i - 1); target := topic_id i |}] else [])
        ++ l)%list)
  end.

(** [{ nodes, links }] *)
Definition roadmap_graph (roadmap : list json) : list GraphNode * list GraphLink :=
  roadmap_graph_from 0 roadmap.

(** ** Theorems: roadmap extraction and display *)

Lemma indexOf_from_first (s : string) (c : ascii) (i : Z) :
  indexOf_from s c i =
  match first_occurrence c s with Some k => (i + Z.of_nat k)%Z | None => (-1)%Z end.
Proof.
  revert i; induction s as [|d r IH]; intros i; simpl; [reflexivity|].
  destruct (Ascii.eqb d c); [lia|].
  rewrite IH; destruct (first_occurrence c r); simpl; lia.
Qed.

Lemma lastIndexOf_from_last (s : string) (c : ascii) (i acc : Z) :
  lastIndexOf_from s c i acc =
  match last_occurrence c s with Some k => (i + Z.of_nat k)%Z | None => acc end.
Proof.
  revert i acc; induction s as [|d r IH]; intros i acc; simpl; [reflexivity|].
  rewrite IH; destruct (last_occurrence c r); [lia|].
  destruct (Ascii.eqb d c); lia.
Qed.

Lemma indexOf_first (s : string) (c : ascii) :
  indexOf s c = match first_occurrence c s with Some k => Z.of_nat k | None => (-1)%Z end.
Proof. unfold indexOf; rewrite indexOf_from_first; destruct (first_occurrence c s); lia. Qed.

Lemma lastIndexOf_last (s : string) (c : ascii) :
  lastIndexOf s c = match last_occurrence c s with Some k => Z.of_nat k | None => (-1)%Z end.
Proof. unfold lastIndexOf; rewrite lastIndexOf_from_last; destruct (last_occurrence c s); lia. Qed.

(** The code's [-1]-based bracket test decides exactly [bracket_span]. *)
Lemma tryExtract_bracket_span (parse : string -> option json) (text : string) :
  tryExtractRoadmapFromText parse text =
  match bracket_span text with
  | None => None
  | Some span =>
      match parse span with
      | Some (JArr l) => if forallb is_topic l then Some (JArr l) else None
      | _ => None
      end
  end.
Proof.
  unfold tryExtractRoadmapFromText, bracket_span.
  rewrite indexOf_first, lastIndexOf_last.
  destruct (first_occurrence "[" text) as [i|], (last_occurrence "]" text) as [j|];
    simpl; try reflexivity.
  - destruct (Nat.ltb_spec i j).
    + replace ((Z.of_nat i =? -1)%Z || (Z.of_nat j =? -1)%Z || (Z.of_nat j <=? Z.of_nat i)%Z)
        with false by (symmetry; repeat rewrite orb_false_iff; repeat split; lia).
      unfold slice.
      replace (Z.to_nat (Z.of_nat j + 1)) with (S j) by lia.
      rewrite Nat2Z.id.
      destruct (parse _) as [[]|]; reflexivity.
    + replace ((Z.of_nat i =? -1)%Z || (Z.of_nat j =? -1)%Z || (Z.of_nat j <=? Z.of_nat i)%Z)
        with true by (symmetry; repeat rewrite orb_true_iff; right; lia).
      reflexivity.
  - destruct ((Z.of_nat i =? -1)%Z); reflexivity.
Qed.

Example tryExtract_example :
  tryExtractRoadmapFromText JsonSubset.parse
    (JsonSubset.of_squotes
       "Plan: [{'type':'TOPIC','name':'A','subtopics':[{'type':'SUBTOPIC','name':'a1'}]}] ok")
  = Some (JArr [JObj [("type", JStr "TOPIC"); ("name", JStr "A");
                      ("subtopics", JArr [JObj [("type", JStr "SUBTOPIC"); ("name", JStr "a1")]])]]).
Proof. vm_compute. reflexivity. Qed.

(** C1: roadmap extraction.  Without a first [\[], a last [\]], or with the
    last [\]] not strictly after the first [\[], the result is [null]
    ([None]); otherwise the trimmed span from the first [\[] through the last
    [\]] is parsed, and the parsed value is returned exactly when parsing
    succeeds, the value is an array and every element has the Topic shape.
    One malformed element rejects the whole array, and [\[\]] is returned as
    an empty roadmap (not [null]). *)
Theorem tryExtractRoadmapFromText_correct (parse : string -> option json) (text : string) :
  tryExtractRoadmapFromText parse text = extract_roadmap_spec parse text /\
  ((first_occurrence "[" text = None \/ last_occurrence "]" text = None \/
    (exists i j, first_occurrence "[" text = Some i /\
                 last_occurrence "]" text = Some j /\ (j <= i)%nat)) ->
   tryExtractRoadmapFromText parse text = None) /\
  (forall i j, first_occurrence "[" text = Some i -> last_occurrence "]" text = Some j ->
   (i < j)%nat -> bracket_span text = Some (trim (substring i (S j - i) text))) /\
  (forall span v, bracket_span text = Some span ->
   (tryExtractRoadmapFromText parse text = Some v <->
    parse span = Some v /\
    exists l, v = JArr l /\ Forall (fun t => is_topic t = true) l)) /\
  (forall span l t, bracket_span text = Some span -> parse span = Some (JArr l) ->
   In t l -> is_topic t = false -> tryExtractRoadmapFromText parse text = None) /\
  (forall span, bracket_span text = Some span -> parse span = Some (JArr []) ->
   tryExtractRoadmapFromText parse text = Some (JArr [])).
Proof.
  rewrite tryExtract_bracket_span.
  split; [reflexivity|]. split; [|split; [|split; [|split]]].
  - unfold bracket_span.
    intros [H|[H|(i & j & Hi & Hj & Hle)]]; rewrite ?H.
    + reflexivity.
    + destruct (first_occurrence "[" text); reflexivity.
    + rewrite Hi, Hj. destruct (Nat.ltb_spec i j); [lia|reflexivity].
  - intros i j Hi Hj Hlt. unfold bracket_span. rewrite Hi, Hj.
    destruct (Nat.ltb_spec i j); [reflexivity|lia].
  - intros span v Hs. rewrite Hs. split.
    + destruct (parse span) as [[|b|q|s|l|fs]|] eqn:Hp; try discriminate.
      destruct (forallb is_topic l) eqn:Hf; [|discriminate].
      intros Hv; injection Hv as <-. split; [reflexivity|].
      exists l; split; [reflexivity|]. apply List.Forall_forall.
      intros x Hx. rewrite forallb_forall in Hf. apply Hf; assumption.
    + intros [Hp (l & -> & Hall)]. rewrite Hp.
      replace (forallb is_topic l) with true; [reflexivity|].
      symmetry; apply forallb_forall. apply List.Forall_forall. exact Hall.
  - intros span l t Hs Hp Hin Ht. rewrite Hs, Hp.
    destruct (forallb is_topic l) eqn:Hf; [|reflexivity].
    rewrite forallb_forall in Hf. rewrite (Hf t Hin) in Ht. discriminate.
  - intros span Hs Hp. rewrite Hs, Hp. reflexivity.
Qed.

(** *** [trim] *)

Lemma drop_space_idem (l : list ascii) : drop_space (drop_space l) = drop_space l.
Proof.
  induction l as [|c r IH]; simpl; [reflexivity|].
  destruct (is_js_space c) eqn:Hc; [exact IH|simpl; rewrite Hc; reflexivity].
Qed.

Lemma drop_space_length (l : list ascii) : (length (drop_space l) <= length l)%nat.
Proof.
  induction l as [|c r IH]; simpl; [lia|]. destruct (is_js_space c); simpl; lia.
Qed.

Lemma drop_space_fixed_head (c : ascii) (r : list ascii) :
  drop_space (c :: r) = c :: r -> is_js_space c = false.
Proof.
  simpl; destruct (is_js_space c); [|reflexivity].
  intros H. pose proof (drop_space_length r) as Hl. rewrite H in Hl; simpl in Hl; lia.
Qed.

Lemma drop_space_app (a b : list ascii) :
  drop_space a = a -> a <> [] -> drop_space (a ++ b)%list = (a ++ b)%list.
Proof.
  destruct a as [|c r]; [congruence|]. intros H _.
  apply drop_space_fixed_head in H. simpl; rewrite H; reflexivity.
Qed.

Lemma drop_space_prefix (l : list ascii) : exists p, l = (p ++ drop_space l)%list.
Proof.
  induction l as [|c r [p Hp]]; simpl; [exists []; reflexivity|].
  destruct (is_js_space c); [exists (c :: p); simpl; f_equal; exact Hp|exists []; reflexivity].
Qed.

Lemma list_ascii_of_string_app (s1 s2 : string) :
  list_ascii_of_string (s1 ++ s2) = (list_ascii_of_string s1 ++ list_ascii_of_string s2)%list.
Proof. induction s1 as [|c r IH]; simpl; [reflexivity|f_equal; exact IH]. Qed.

(** A string whose code units neither start nor end with white space. *)
Definition trimmed_list (l : list ascii) : Prop :=
  drop_space l = l /\ drop_space (rev l) = rev l.

Lemma trim_fixed (s : string) : trimmed_list (list_ascii_of_string s) -> trim s = s.
Proof.
  intros [H1 H2]. unfold trim. rewrite H1, H2, rev_involutive.
  apply string_of_list_ascii_of_string.
Qed.

Lemma trim_trimmed (s : string) : trimmed_list (list_ascii_of_string (trim s)).
Proof.
  unfold trim; rewrite list_ascii_of_string_of_list_ascii.
  set (m := drop_space (list_ascii_of_string s)).
  assert (Hm : drop_space m = m) by apply drop_space_idem.
  split; [|rewrite rev_involutive; apply drop_space_idem].
  destruct (drop_space_prefix (rev m)) as [p Hp].
  assert (Hsplit : m = (rev (drop_space (rev m)) ++ rev p)%list).
  { rewrite <- (rev_involutive m) at 1. rewrite Hp at 1. rewrite rev_app_distr. reflexivity. }
  destruct (rev (drop_space (rev m))) as [|c r] eqn:E; [reflexivity|].
  rewrite Hsplit in Hm. simpl in Hm |- *.
  destruct (is_js_space c) eqn:Hc; [|reflexivity].
  pose proof (drop_space_length (r ++ rev p)%list) as Hl. rewrite Hm in Hl. simpl in Hl. lia.
Qed.

Lemma trim_idem (s : string) : trim (trim s) = trim s.
Proof. apply trim_fixed, trim_trimmed. Qed.

Lemma nonempty_list (s : string) : s <> EmptyString -> list_ascii_of_string s <> [].
Proof. destruct s; simpl; congruence. Qed.

Lemma trim_join_two (a b : string) :
  trimmed_list (list_ascii_of_string a) -> trimmed_list (list_ascii_of_string b) ->
  a <> EmptyString -> b <> EmptyString ->
  trim (a ++ blank_line ++ b) = a ++ blank_line ++ b.
Proof.
  intros [Ha1 Ha2] [Hb1 Hb2] Ha Hb. apply trim_fixed.
  apply nonempty_list in Ha, Hb.
  rewrite !list_ascii_of_string_app. split.
  - apply drop_space_app; assumption.
  - rewrite !rev_app_distr, <- app_assoc. apply drop_space_app; [assumption|].
    intros E; apply Hb; apply (f_equal (@rev ascii)) in E; rewrite rev_involutive in E; exact E.
Qed.

(** *** Display of AI messages *)

Lemma str_truthy_true (s : string) : str_truthy s = true -> s <> EmptyString.
Proof. destruct s; [vm_compute; intros H; discriminate H|intros _; discriminate]. Qed.

Lemma clean_content_prose (b a : string) :
  trimmed_list (list_ascii_of_string b) -> trimmed_list (list_ascii_of_string a) ->
  (let cleanContent := trim (join blank_line (List.filter str_truthy [b; a])) in
   if str_truthy cleanContent then cleanContent else roadmap_placeholder)
  = prose_around b a.
Proof.
  intros Hb Ha. cbv zeta. cbn [List.filter].
  destruct (str_truthy b) eqn:Tb, (str_truthy a) eqn:Ta; cbn [join].
  - rewrite trim_join_two by auto using str_truthy_true.
    destruct b as [|cb rb]; [discriminate|]. destruct a as [|ca ra]; [discriminate|].
    reflexivity.
  - rewrite (trim_fixed _ Hb), Tb.
    destruct b as [|cb rb]; [discriminate|]. destruct a as [|ca ra]; [|discriminate].
    reflexivity.
  - rewrite (trim_fixed _ Ha), Ta.
    destruct b as [|cb rb]; [|discriminate]. destruct a as [|ca ra]; [discriminate|].
    reflexivity.
  - destruct b as [|cb rb]; [|discriminate]. destruct a as [|ca ra]; [|discriminate].
    reflexivity.
Qed.

(** C9 (as amended): when extraction fails the AI message is shown
    unchanged (not trimmed); when it succeeds, the first [\[] at [i] and the
    last [\]] at [j > i] are removed together with everything between, and
    the shown text is the trimmed prefix and trimmed suffix, the non-empty
    ones joined by a blank line, or the fixed [roadmap_placeholder] when both
    are empty. *)
Theorem displayed_ai_content_correct (parse : string -> option json) (content : string) :
  (tryExtractRoadmapFromText parse content = None ->
   displayed_ai_content parse content = content) /\
  (forall v, tryExtractRoadmapFromText parse content = Some v ->
   exists i j,
     first_occurrence "[" content = Some i /\
     last_occurrence "]" content = Some j /\ (i < j)%nat /\
     displayed_ai_content parse content =
     prose_around (trim (substring 0 i content))
                  (trim (substring (S j) (String.length content - S j) content))).
Proof.
  split.
  - intros H; unfold displayed_ai_content; rewrite H; reflexivity.
  - intros v H.
    pose proof H as H'. rewrite tryExtract_bracket_span in H'. unfold bracket_span in H'.
    destruct (first_occurrence "[" content) as [i|] eqn:Hi; [|discriminate].
    destruct (last_occurrence "]" content) as [j|] eqn:Hj; [|discriminate].
    destruct (Nat.ltb_spec i j) as [Hlt|]; [|discriminate].
    exists i, j. split; [reflexivity|]. split; [reflexivity|]. split; [exact Hlt|].
    unfold displayed_ai_content. rewrite H, indexOf_first, lastIndexOf_last, Hi, Hj.
    replace (negb (Z.of_nat i =? -1)%Z && negb (Z.of_nat j =? -1)%Z &&
             (Z.of_nat i <? Z.of_nat j)%Z) with true
      by (symmetry; rewrite !andb_true_iff, !negb_true_iff, !Z.eqb_neq, Z.ltb_lt; lia).
    unfold slice, slice_from.
    replace (Z.to_nat (Z.of_nat j + 1)) with (S j) by lia.
    rewrite Nat2Z.id. cbn [Z.to_nat]. rewrite Nat.sub_0_r.
    apply clean_content_prose; apply trim_trimmed.
Qed.

(** C9: the claim as stated fails.  For ["[]"] the extracted roadmap is
    empty and there is no prose around it, yet the shown text is the fixed
    placeholder rather than the empty join of prefix and suffix; and for a
    text without brackets the shown text is the original, not the trimmed
    original. *)
Lemma displayed_ai_content_counterexample :
  tryExtractRoadmapFromText JsonSubset.parse "[]" = Some (JArr []) /\
  displayed_ai_content JsonSubset.parse "[]" = roadmap_placeholder /\
  roadmap_placeholder <> EmptyString /\
  tryExtractRoadmapFromText JsonSubset.parse "  hi  " = None /\
  displayed_ai_content JsonSubset.parse "  hi  " = "  hi  " /\
  trim "  hi  " = "hi".
Proof. repeat split; vm_compute; try reflexivity; discriminate. Qed.

(** ** Theorems: practice generation *)

Lemma is_integer_spec (n : Q) : is_integer n = true <-> exists z : Z, (n == inject_Z z)%Q.
Proof.
  unfold is_integer, Qeq, inject_Z; simpl. rewrite Z.eqb_eq.
  rewrite Z.mod_divide by lia. split.
  - intros [z Hz]. exists z. rewrite Hz. lia.
  - intros [z Hz]. exists z. lia.
Qed.

Lemma mcq_ok_spec (q : json) :
  mcq_ok q = true <->
  (exists s, js_get q "question" = Some (JStr s)) /\
  (exists os, js_get q "options" = Some (JArr os) /\ length os = 4%nat) /\
  (exists n, js_get q "correctIndex" = Some (JNum n) /\
             (exists z : Z, (n == inject_Z z)%Q) /\ (0 <= n)%Q /\ (n < 4)%Q).
Proof.
  unfold mcq_ok, is_string_prop. rewrite !andb_true_iff. split.
  - intros [[Hs Ho] Hc]. split; [|split].
    + destruct (js_get q "question") as [[]|]; try discriminate. eexists; reflexivity.
    + destruct (js_get q "options") as [[| | | |os|]|]; try discriminate.
      apply Nat.eqb_eq in Ho. eexists; split; [reflexivity|exact Ho].
    + destruct (js_get q "correctIndex") as [[| |n| | |]|]; try discriminate.
      rewrite !andb_true_iff, negb_true_iff in Hc. destruct Hc as [[Hi H0] H4].
      exists n. split; [reflexivity|]. split; [apply is_integer_spec; exact Hi|].
      split; [apply Qle_bool_iff; exact H0|].
      apply Qnot_le_lt. intros Hle. apply Qle_bool_iff in Hle. congruence.
  - intros [[s Hs] [[os [Ho Hl]] [n [Hc [Hi [H0 H4]]]]]].
    rewrite Hs, Ho, Hc. split; [split; [reflexivity|apply Nat.eqb_eq; exact Hl]|].
    rewrite !andb_true_iff, negb_true_iff. split; [split|].
    + apply is_integer_spec; exact Hi.
    + apply Qle_bool_iff; exact H0.
    + destruct (Qle_bool 4 n) eqn:E; [|reflexivity].
      apply Qle_bool_iff in E. exfalso. apply (Qlt_not_le n 4); assumption.
Qed.

Lemma text_ok_spec (t : json) :
  text_ok t = true <-> exists s, js_get t "prompt" = Some (JStr s).
Proof.
  unfold text_ok, is_string_prop. split.
  - destruct (js_get t "prompt") as [[]|]; try discriminate. eexists; reflexivity.
  - intros [s ->]. reflexivity.
Qed.

Lemma clamp_count_range (n : option Z) (d hi : Z) :
  (1 <= hi)%Z -> (1 <= clamp_count n d hi <= hi)%Z.
Proof. unfold clamp_count; lia. Qed.

Lemma generatePractice_parsed (parse : string -> option json) (instruction : Z -> Z -> string)
    (stringify : json -> string) (k : string) (generateContent : string -> sdk_outcome)
    (input : GeneratePracticeInput) (t : string) (parsed : json) :
  k <> EmptyString ->
  generateContent (practice_prompt instruction stringify input) = sdk_resolved (response_text t) ->
  parse (trim t) = Some parsed ->
  generatePractice parse instruction stringify (Some k) generateContent input =
  Resolved {| mcqs := filtered_prop parsed "mcqs" mcq_ok (clamp_count (numMcqs input) 3 6);
              texts := filtered_prop parsed "texts" text_ok (clamp_count (numTexts input) 2 4) |}.
Proof.
  intros Hk Ht Hp. unfold generatePractice.
  destruct k as [|c r]; [congruence|]. rewrite Ht, Hp. reflexivity.
Qed.

Lemma filtered_prop_in (v : json) (key : string) (ok : json -> bool) (n : Z) (x : json) :
  In x (filtered_prop v key ok n) ->
  ok x = true /\ exists l, js_get v key = Some (JArr l) /\ In x l.
Proof.
  unfold filtered_prop. destruct (js_get v key) as [[| | | |l|]|]; try contradiction.
  intros Hx.
  assert (Hx' : In x (List.filter ok l)).
  { rewrite <- (firstn_skipn (Z.to_nat n) (List.filter ok l)). apply in_or_app; left; exact Hx. }
  apply List.filter_In in Hx' as [Hin Hok].
  split; [exact Hok|]. exists l; split; [reflexivity|exact Hin].
Qed.

Lemma filtered_prop_length (v : json) (key : string) (ok : json -> bool) (n : Z) :
  (length (filtered_prop v key ok n) <= Z.to_nat n)%nat.
Proof.
  unfold filtered_prop. destruct (js_get v key) as [[| | | |l|]|]; simpl; try lia.
  apply firstn_le_length.
Qed.

(** C8: once the service has answered with text that parses, an MCQ
    candidate is kept exactly when its question is a string, its options an
    array of 4 entries and its correctIndex an integer in [\[0,4)]; a
    short-answer candidate exactly when its prompt is a string; invalid
    candidates are dropped whatever the others are; the kept lists are the
    first [clamp_count] valid candidates, with the counts defaulting to 3 and
    2 and clamped to [\[1,6\]] and [\[1,4\]]. *)
Theorem generatePractice_validation (parse : string -> option json)
    (instruction : Z -> Z -> string) (stringify : json -> string) (k : string)
    (generateContent : string -> sdk_outcome) (input : GeneratePracticeInput)
    (t : string) (parsed : json)
    (Hk : k <> EmptyString)
    (Ht : generateContent (practice_prompt instruction stringify input) =
          sdk_resolved (response_text t))
    (Hp : parse (trim t) = Some parsed) :
  let nm := clamp_count (numMcqs input) 3 6 in
  let nt := clamp_count (numTexts input) 2 4 in
  generatePractice parse instruction stringify (Some k) generateContent input =
    Resolved {| mcqs := filtered_prop parsed "mcqs" mcq_ok nm;
                texts := filtered_prop parsed "texts" text_ok nt |} /\
  (forall l, js_get parsed "mcqs" = Some (JArr l) ->
   filtered_prop parsed "mcqs" mcq_ok nm = firstn (Z.to_nat nm) (List.filter mcq_ok l)) /\
  (forall l, js_get parsed "texts" = Some (JArr l) ->
   filtered_prop parsed "texts" text_ok nt = firstn (Z.to_nat nt) (List.filter text_ok l)) /\
  (forall q, mcq_ok q = true <->
     (exists s, js_get q "question" = Some (JStr s)) /\
     (exists os, js_get q "options" = Some (JArr os) /\ length os = 4%nat) /\
     (exists n, js_get q "correctIndex" = Some (JNum n) /\
                (exists z : Z, (n == inject_Z z)%Q) /\ (0 <= n)%Q /\ (n < 4)%Q)) /\
  (forall x, text_ok x = true <-> exists s, js_get x "prompt" = Some (JStr s)) /\
  (forall q, In q (filtered_prop parsed "mcqs" mcq_ok nm) -> mcq_ok q = true) /\
  (forall x, In x (filtered_prop parsed "texts" text_ok nt) -> text_ok x = true) /\
  (length (filtered_prop parsed "mcqs" mcq_ok nm) <= Z.to_nat nm)%nat /\
  (length (filtered_prop parsed "texts" text_ok nt) <= Z.to_nat nt)%nat /\
  (1 <= nm <= 6)%Z /\ (1 <= nt <= 4)%Z /\
  (numMcqs input = None -> nm = 3%Z) /\ (numTexts input = None -> nt = 2%Z) /\
  (forall m, numMcqs input = Some m -> nm = Z.max 1 (Z.min m 6)) /\
  (forall m, numTexts input = Some m -> nt = Z.max 1 (Z.min m 4)).
Proof.
  cbv zeta.
  split; [exact (generatePractice_parsed _ _ _ _ _ _ t parsed Hk Ht Hp)|].
  split; [intros l Hl; unfold filtered_prop; rewrite Hl; reflexivity|].
  split; [intros l Hl; unfold filtered_prop; rewrite Hl; reflexivity|].
  split; [exact mcq_ok_spec|].
  split; [exact text_ok_spec|].
  split; [intros q Hq; apply (filtered_prop_in _ _ _ _ _ Hq)|].
  split; [intros x Hx; apply (filtered_prop_in _ _ _ _ _ Hx)|].
  split; [apply filtered_prop_length|].
  split; [apply filtered_prop_length|].
  split; [apply clamp_count_range; lia|].
  split; [apply clamp_count_range; lia|].
  unfold clamp_count.
  split; [intros ->; reflexivity|].
  split; [intros ->; reflexivity|].
  split; intros m ->; reflexivity.
Qed.

(** C8, at a reply with one valid MCQ, one with 3 options, one with
    correctIndex 4, and three short-answer candidates of which the first has
    no prompt; the short-answer count is set to 1. *)
Lemma generatePractice_validation_witness :
  exists parsed,
    "key" <> EmptyString /\ JsonSubset.parse (trim practice_reply_example) = Some parsed /\
    generatePractice JsonSubset.parse (fun _ _ => "tutor") (fun _ => "{}") (Some "key")
      (fun _ => sdk_resolved (response_text practice_reply_example)) practice_input_example =
    Resolved {| mcqs := [JObj [("question", JStr "Q1");
                              ("options", JArr [JStr "a"; JStr "b"; JStr "c"; JStr "d"]);
                              ("correctIndex", JNum (inject_Z 1))]];
                texts := [JObj [("prompt", JStr "Explain BFS")]] |}.
Proof.
  pose (p := match JsonSubset.parse (trim practice_reply_example) with
             | Some p => p | None => JNull end).
  assert (Hp : JsonSubset.parse (trim practice_reply_example) = Some p)
    by (vm_compute; reflexivity).
  exists p. split; [discriminate|]. split; [exact Hp|].
  pose proof (generatePractice_validation JsonSubset.parse (fun _ _ => "tutor")
    (fun _ => "{}") "key" (fun _ => sdk_resolved (response_text practice_reply_example))
    practice_input_example practice_reply_example p ltac:(discriminate) eq_refl Hp) as E.
  rewrite (proj1 E). vm_compute. reflexivity.
Defined.

(** C2 (as amended): generatePractice fails open, resolving to empty lists,
    when the API key is missing or empty and when the reply text is not
    JSON; it resolves to a value whenever the reply text could be read; and
    it rejects exactly when the SDK call rejects or reading the reply text
    throws, with that error. *)
Theorem generatePractice_fail_open (parse : string -> option json)
    (instruction : Z -> Z -> string) (stringify : json -> string)
    (apiKey : option string) (generateContent : string -> sdk_outcome)
    (input : GeneratePracticeInput) :
  let r := generatePractice parse instruction stringify apiKey generateContent input in
  let outcome := generateContent (practice_prompt instruction stringify input) in
  ((apiKey = None \/ apiKey = Some EmptyString) -> r = Resolved empty_practice) /\
  (forall t, apiKey <> None -> outcome = sdk_resolved (response_text t) ->
   parse (trim t) = None -> r = Resolved empty_practice) /\
  (forall t, outcome = sdk_resolved (response_text t) -> exists p, r = Resolved p) /\
  (forall e, r = Rejected e ->
   outcome = sdk_rejected e \/ outcome = sdk_resolved (text_throws e)) /\
  (forall e, apiKey <> None -> apiKey <> Some EmptyString ->
   (outcome = sdk_rejected e \/ outcome = sdk_resolved (text_throws e)) -> r = Rejected e).
Proof.
  cbv zeta. unfold generatePractice.
  split; [intros [-> | ->]; reflexivity|].
  destruct apiKey as [[|c k]|].
  - repeat split; intros; try congruence; eexists; reflexivity.
  - split; [intros t _ Ho Hp; rewrite Ho, Hp; reflexivity|].
    split; [intros t Ho; rewrite Ho; destruct (parse (trim t)); eexists; reflexivity|].
    split.
    + intros e. destruct (generateContent _) as [[t|e']|e']; try (intros H; injection H as <-; auto).
      destruct (parse (trim t)); discriminate.
    + intros e _ _ [Ho|Ho]; rewrite Ho; reflexivity.
  - repeat split; intros; try congruence; eexists; reflexivity.
Qed.

(** C2: the claim as stated fails: with an API key set and the outbound
    call failing, the promise rejects instead of resolving to empty lists. *)
Lemma generatePractice_counterexample :
  generatePractice JsonSubset.parse (fun _ _ => "tutor") (fun _ => "{}") (Some "key")
    (fun _ => sdk_rejected "fetch failed")
    {| topic := "Graphs"; subtopic := "BFS"; roadmap := None;
       numMcqs := None; numTexts := None |}
  = Rejected "fetch failed".
Proof. reflexivity. Qed.

(** ** Theorems: the store *)

(** *** Frame lemmas: user resolution touches only the users *)

Lemma mk_users_self (s : db) : mk_users (users s) (next_id s) s = s.
Proof. destruct s; reflexivity. Qed.

Lemma users_only_ret {A} (a : A) : users_only (ret a).
Proof.
  intros s. exists (Ok a), (users s), (next_id s). intros s0 Hu Hn.
  rewrite <- Hu, <- Hn, mk_users_self. reflexivity.
Qed.

Lemma users_only_throw {A} (e : string) : users_only (@throw A e).
Proof.
  intros s. exists (Throw e), (users s), (next_id s). intros s0 Hu Hn.
  rewrite <- Hu, <- Hn, mk_users_self. reflexivity.
Qed.

Lemma users_only_gets {A} (g : db -> A) :
  (forall s s0, users s0 = users s -> g s0 = g s) -> users_only (gets g).
Proof.
  intros Hg s. exists (Ok (g s)), (users s), (next_id s). intros s0 Hu Hn.
  unfold gets. rewrite (Hg s s0 Hu), <- Hu, <- Hn, mk_users_self. reflexivity.
Qed.

Lemma users_only_modify (f : db -> db) :
  (forall s, exists us n, forall s0, users s0 = users s -> next_id s0 = next_id s ->
     f s0 = mk_users us n s0) ->
  users_only (modify f).
Proof.
  intros Hf s. destruct (Hf s) as (us & n & E). exists (Ok tt), us, n.
  intros s0 Hu Hn. unfold modify. rewrite (E s0 Hu Hn). reflexivity.
Qed.

Lemma users_only_fresh : users_only fresh_id.
Proof.
  intros s. exists (Ok (next_id s)), (users s), (S (next_id s)). intros s0 Hu Hn.
  unfold fresh_id, bump_id. rewrite Hn. destruct s0; simpl in *; subst; reflexivity.
Qed.

Lemma users_only_bind {A B} (m : M A) (k : A -> M B) :
  users_only m -> (forall a, users_only (k a)) -> users_only (bind m k).
Proof.
  intros Hm Hk s. destruct (Hm s) as (o & us & n & E). destruct o as [a|e].
  - destruct (Hk a (mk_users us n s)) as (o' & us' & n' & E').
    exists o', us', n'. intros s0 Hu Hn. unfold bind. rewrite (E s0 Hu Hn).
    rewrite (E' (mk_users us n s0) eq_refl eq_refl). reflexivity.
  - exists (Throw e), us, n. intros s0 Hu Hn. unfold bind. rewrite (E s0 Hu Hn). reflexivity.
Qed.

Ltac users_only_step :=
  match goal with
  | |- users_only (bind _ _) => apply users_only_bind; [|intros ?]
  | |- users_only (ret _) => apply users_only_ret
  | |- users_only (throw _) => apply users_only_throw
  | |- users_only fresh_id => apply users_only_fresh
  | |- users_only (gets _) =>
      apply users_only_gets; intros ?s ?s0 ?Hu; cbv beta; congruence
  | |- users_only (modify _) =>
      apply users_only_modify;
      let t := fresh "t" in let t0 := fresh "t" in
      let H1 := fresh "H" in let H2 := fresh "H" in
      intros t; do 2 eexists; intros t0 H1 H2;
      unfold set_users, mk_users; rewrite ?H1, ?H2; reflexivity
  | |- users_only (match ?x with _ => _ end) => destruct x
  | |- users_only (if ?b then _ else _) => destruct b
  | |- users_only ((fun _ => _) _) => cbv beta
  end.

Lemma users_only_upsert (e : string) (un cn : option string) :
  users_only (upsert_user_by_email e un cn).
Proof.
  unfold upsert_user_by_email, find_user_by_email, create_user.
  repeat users_only_step.
Qed.

Lemma users_only_guest : users_only ensureGuestUserId.
Proof. apply users_only_upsert. Qed.

Lemma users_only_resolve (session : Session) : users_only (resolveUserIdFromSession session).
Proof.
  unfold resolveUserIdFromSession.
  destruct (trim_or_null (s_email session)); [apply users_only_upsert|].
  destruct (trim_or_null (s_name session)); [|apply users_only_guest].
  unfold find_last_user_by_name, create_user. repeat users_only_step.
Qed.

Lemma users_only_whoami (session : Session) : users_only (whoami session).
Proof.
  unfold whoami. destruct (opt_truthy (s_name session));
    [apply users_only_resolve | apply users_only_guest].
Qed.

Lemma users_only_pathway_user_id (session : Session) : users_only (pathway_user_id session).
Proof.
  unfold pathway_user_id. destruct (opt_truthy (s_email session)).
  - unfold find_user_by_email. repeat users_only_step.
  - apply users_only_bind; [apply users_only_guest|]. intros. apply users_only_ret.
Qed.

Lemma users_only_state {A} (m : M A) (s : db) :
  users_only m ->
  chats (snd (m s)) = chats s /\ pathways (snd (m s)) = pathways s /\ now (snd (m s)) = now s.
Proof.
  intros H. destruct (H s) as (o & us & n & E). rewrite (E s eq_refl eq_refl). simpl. auto.
Qed.

Lemma users_only_same {A} (m : M A) (s s0 : db) :
  users_only m -> users s0 = users s -> next_id s0 = next_id s ->
  fst (m s0) = fst (m s) /\ users (snd (m s0)) = users (snd (m s)).
Proof.
  intros H Hu Hn. destruct (H s) as (o & us & n & E).
  rewrite (E s0 Hu Hn), (E s eq_refl eq_refl). simpl. auto.
Qed.

Lemma users_only_deleted {A} (m : M A) (cid : string) (d : option Z) :
  users_only m -> deleted_commutes cid d m.
Proof.
  intros H s. destruct (H s) as (o & us & n & E).
  rewrite (E (set_deleted cid d s) eq_refl eq_refl), (E s eq_refl eq_refl). reflexivity.
Qed.

(** The resolvers never throw. *)
Lemma upsert_ok (e : string) (un cn : option string) (s : db) :
  exists i, fst (upsert_user_by_email e un cn s) = Ok i.
Proof.
  unfold upsert_user_by_email, find_user_by_email, create_user, bind, gets.
  destruct (List.find _ (users s)) as [u|]; [destruct un|]; simpl; eexists; reflexivity.
Qed.

Lemma resolve_ok (session : Session) (s : db) :
  exists i, fst (resolveUserIdFromSession session s) = Ok i.
Proof.
  unfold resolveUserIdFromSession.
  destruct (trim_or_null (s_email session)); [apply upsert_ok|].
  destruct (trim_or_null (s_name session)); [|apply upsert_ok].
  unfold find_last_user_by_name, create_user, bind, gets.
  destruct (List.find _ (rev (users s))); simpl; eexists; reflexivity.
Qed.

Lemma whoami_ok (session : Session) (s : db) :
  exists i, fst (whoami session s) = Ok i.
Proof.
  unfold whoami. destruct (opt_truthy (s_name session)); [apply resolve_ok | apply upsert_ok].
Qed.

(** *** Appending a turn *)

(** C3: for a chat owned by the caller as [whoami] resolves them,
    [appendTurn] succeeds and rewrites only that chat: its message list is
    the old one (or the empty list) followed by the user message and then
    the AI message; its roadmap is replaced only when a roadmap argument
    is given; the UI patch is merged over the old UI map (patch keys win)
    only when a patch is given; exactly one ["appendTurn"] event is added
    at the end of the event list; the owner, deletion marker and
    timestamps are kept, and a title that is already set is kept. *)
Theorem appendTurn_appends (session : Session) (s : db) (cid : string) (c : Chat) (uid : nat)
    (userMsg aiMsg : ChatMessage) (roadmap : option json)
    (uiPatch : option (gmap string json))
    (Hw : fst (whoami session s) = Ok uid)
    (Hc : chats s !! cid = Some c) (Ho : userId c = uid) :
  let meta0 := match meta c with Some m => m | None => empty_meta end in
  let r := appendTurn session cid userMsg aiMsg roadmap uiPatch s in
  fst r = Ok ResultOk /\
  exists c' m', chats (snd r) = <[cid := c']> (chats s) /\ meta c' = Some m' /\
    messages m' =
      Some (match messages meta0 with Some l => l | None => [] end ++ [userMsg; aiMsg])%list /\
    meta_roadmap m' = match roadmap with Some x => Some x | None => meta_roadmap meta0 end /\
    ui m' = match uiPatch with
            | Some p => Some (p ∪ match ui meta0 with Some u => u | None => ∅ end)
            | None => ui meta0
            end /\
    (exists ev, ev_type ev = "appendTurn" /\
       events m' = Some (match events meta0 with Some l => l | None => [] end ++ [ev])%list) /\
    userId c' = userId c /\ deletedAt c' = deletedAt c /\
    startedAt c' = startedAt c /\ updatedAt c' = updatedAt c /\
    (opt_truthy (title c) = true -> title c' = title c).
Proof.
  cbv zeta.
  destruct (users_only_state (whoami session) s (users_only_whoami session)) as (Hch & _ & _).
  unfold appendTurn, assertOwnChat, find_chat, transaction, update_chat, bind, gets, ret, throw.
  destruct (whoami session s) as [o s1]. simpl in Hw, Hch. subst o.
  subst uid. rewrite Hch, Hc, Nat.eqb_refl. simpl. rewrite Hch, Hc. simpl.
  split; [reflexivity|].
  destruct (opt_truthy (title c)) eqn:Et; simpl.
  all: eexists _, _; split; [reflexivity|]; split; [reflexivity|].
  all: repeat split; try reflexivity.
  all: try (eexists {| ev_type := "appendTurn"; ts := _; ev_data := _ |}; split; reflexivity).
  all: try (destruct (Nat.eqb _ 0); reflexivity).
  all: intros; congruence.
Qed.

(** C3, at alice's chat "c1" of the example store, with a UI patch. *)
Lemma appendTurn_appends_witness :
  fst (whoami alice db_example) = Ok 0 /\
  chats db_example !! "c1" = Some chat_example /\
  fst (appendTurn alice "c1" msg_user_example msg_ai_example None
         (Some (<["tab" := JStr "b"]> ∅)) db_example) = Ok ResultOk.
Proof.
  split; [reflexivity|]. split; [reflexivity|].
  exact (proj1 (appendTurn_appends alice db_example "c1" chat_example 0
    msg_user_example msg_ai_example None (Some (<["tab" := JStr "b"]> ∅))
    eq_refl eq_refl eq_refl)).
Defined.

(** *** Resolving the caller twice gives the same user *)

Lemma find_app {A} (f : A -> bool) (l1 l2 : list A) :
  List.find f (l1 ++ l2) =
  match List.find f l1 with Some x => Some x | None => List.find f l2 end.
Proof. induction l1 as [|x l1 IH]; simpl; [reflexivity|]. destruct (f x); auto. Qed.

Lemma rename_user_email (i : nat) (n : string) (u : User) :
  email (rename_user i n u) = email u /\ user_id (rename_user i n u) = user_id u.
Proof. unfold rename_user. destruct (Nat.eqb (user_id u) i); auto. Qed.

Lemma find_map_rename (e : string) (i : nat) (n : string) (us : list User) :
  List.find (fun u => opt_eqb (email u) e) (map (rename_user i n) us) =
  option_map (rename_user i n) (List.find (fun u => opt_eqb (email u) e) us).
Proof.
  induction us as [|u us IH]; simpl; [reflexivity|].
  rewrite (proj1 (rename_user_email i n u)). destruct (opt_eqb (email u) e); auto.
Qed.

Lemma upsert_again (e : string) (un cn : option string) (s s2 : db) :
  users s2 = users (snd (upsert_user_by_email e un cn s)) ->
  fst (upsert_user_by_email e un cn s2) = fst (upsert_user_by_email e un cn s).
Proof.
  unfold upsert_user_by_email, find_user_by_email, create_user, fresh_id, bind, gets,
    modify, ret.
  destruct (List.find _ (users s)) as [u|] eqn:F.
  - destruct un as [n|]; simpl; intros H2; rewrite H2.
    + rewrite find_map_rename, F. simpl. rewrite (proj2 (rename_user_email _ n u)). reflexivity.
    + rewrite F. reflexivity.
  - simpl. intros H2. rewrite H2, find_app, F. simpl. rewrite String.eqb_refl. destruct un; reflexivity.
Qed.

Lemma resolve_again (session : Session) (s s2 : db) :
  users s2 = users (snd (resolveUserIdFromSession session s)) ->
  fst (resolveUserIdFromSession session s2) = fst (resolveUserIdFromSession session s).
Proof.
  unfold resolveUserIdFromSession.
  destruct (trim_or_null (s_email session)); [apply upsert_again|].
  destruct (trim_or_null (s_name session)) as [n|]; [|apply upsert_again].
  unfold find_last_user_by_name, create_user, fresh_id, bind, gets, modify, ret.
  destruct (List.find _ (rev (users s))) as [u|] eqn:F; simpl; intros H2; rewrite H2.
  - rewrite F. reflexivity.
  - rewrite rev_unit. simpl. rewrite String.eqb_refl. reflexivity.
Qed.

Lemma whoami_again (session : Session) (s s2 : db) :
  users s2 = users (snd (whoami session s)) ->
  fst (whoami session s2) = fst (whoami session s).
Proof.
  unfold whoami. destruct (opt_truthy (s_name session));
    [apply resolve_again | apply upsert_again].
Qed.

Lemma pathway_user_id_again (session : Session) (s s2 : db) :
  users s2 = users (snd (pathway_user_id session s)) ->
  fst (pathway_user_id session s2) = fst (pathway_user_id session s).
Proof.
  unfold pathway_user_id. destruct (opt_truthy (s_email session)).
  - unfold find_user_by_email, bind, gets, ret. simpl. intros H2. rewrite H2. reflexivity.
  - unfold bind, ret. intros H2.
    assert (E := upsert_again guest_email None (Some "Guest") s s2).
    unfold ensureGuestUserId in *.
    destruct (upsert_user_by_email guest_email None (Some "Guest") s) as [o1 s1] eqn:E1.
    destruct (upsert_user_by_email guest_email None (Some "Guest") s2) as [o2 s3].
    simpl in *. destruct o1; simpl in H2; rewrite E by exact H2; reflexivity.
Qed.

(** *** Saving and reading a snapshot *)

Lemma getChatSnapshot_owned (session : Session) (s : db) (cid : string) (c : Chat) :
  fst (whoami session s) = Ok (userId c) -> chats s !! cid = Some c ->
  let m := match meta c with Some m => m | None => empty_meta end in
  fst (getChatSnapshot session cid s) =
    Ok {| snap_id := cid; snap_title := title c;
          snap_messages := match messages m with Some l => l | None => [] end;
          snap_roadmap := match meta_roadmap m with Some r => r | None => JNull end;
          snap_updatedAt := updatedAt c; snap_startedAt := startedAt c |}.
Proof.
  intros Hw Hc. cbv zeta.
  destruct (users_only_state (whoami session) s (users_only_whoami session)) as (Hch & _ & _).
  unfold getChatSnapshot, assertOwnChat, find_chat, bind, gets, ret.
  destruct (whoami session s) as [o s1]. simpl in Hw, Hch. subst o.
  rewrite Hch, Hc, Nat.eqb_refl. simpl. rewrite Hch, Hc. reflexivity.
Qed.

Lemma str_truthy_false (v : string) : str_truthy v = false -> v = EmptyString.
Proof.
  unfold str_truthy. intros H. apply negb_false_iff, String.eqb_eq in H. exact H.
Qed.

(** [whoami] and [resolveUserIdFromSession] agree when the session's name
    is truthy, or when there is no usable email. *)
Lemma whoami_resolve_agree (session : Session) (s : db) :
  opt_truthy (s_name session) = true \/ trim_or_null (s_email session) = None ->
  whoami session s = resolveUserIdFromSession session s.
Proof.
  unfold whoami. destruct (opt_truthy (s_name session)) eqn:En; [reflexivity|].
  intros [H|H]; [discriminate|].
  unfold resolveUserIdFromSession. rewrite H.
  destruct (s_name session) as [v|]; simpl in En |- *; [|reflexivity].
  rewrite (str_truthy_false v En). reflexivity.
Qed.

(** [getChatSnapshot] is refused when [whoami] resolves the caller to
    someone other than the chat's owner. *)
Lemma getChatSnapshot_not_owner (session : Session) (s : db) (cid : string) (w : nat) :
  fst (whoami session s) = Ok w ->
  match chats s !! cid with Some c => userId c <> w | None => True end ->
  fst (getChatSnapshot session cid s) = Throw not_owned_msg.
Proof.
  intros Hw Hn.
  destruct (users_only_state (whoami session) s (users_only_whoami session)) as (Hch & _ & _).
  unfold getChatSnapshot, assertOwnChat, find_chat, bind, gets, ret, throw.
  destruct (whoami session s) as [o s1]. simpl in Hw, Hch. subst o.
  rewrite Hch. destruct (chats s !! cid) as [c|]; [|reflexivity].
  apply Nat.eqb_neq in Hn. rewrite Hn. reflexivity.
Qed.

(** C4 (as amended): for a chat owned by the caller as
    [resolveUserIdFromSession] resolves them, [saveChatSnapshot] succeeds
    and replaces the whole meta blob with one holding only the given
    messages and the roadmap (or [null]): the UI map and the event log are
    dropped.  It sets the title to [titleFallback] exactly when that is
    truthy and the chat's title is not, and keeps the owner, deletion
    marker and timestamps.  A [getChatSnapshot] issued right after returns
    exactly the saved messages and roadmap when [whoami] resolves the
    caller to the chat's owner, and is refused when it resolves them to
    anyone else.  [whoami] resolves the owner whenever the session name is
    truthy or there is no usable email; without a name it resolves to the
    guest user. *)
Theorem saveChatSnapshot_overwrites_meta (session : Session) (s : db) (cid : string)
    (c : Chat) (uid : nat) (msgs : list ChatMessage) (roadmap : option json)
    (titleFallback : option string)
    (Hr : fst (resolveUserIdFromSession session s) = Ok uid)
    (Hc : chats s !! cid = Some c) (Ho : userId c = uid) :
  let r := saveChatSnapshot session cid msgs roadmap titleFallback s in
  let rm := match roadmap with Some x => x | None => JNull end in
  fst r = Ok ResultOk /\
  exists c', chats (snd r) = <[cid := c']> (chats s) /\
    meta c' = Some {| messages := Some msgs; meta_roadmap := Some rm;
                      ui := None; events := None |} /\
    title c' = (if opt_truthy titleFallback && negb (opt_truthy (title c))
                then titleFallback else title c) /\
    userId c' = userId c /\ deletedAt c' = deletedAt c /\
    startedAt c' = startedAt c /\ updatedAt c' = updatedAt c /\
    (forall w, fst (whoami session (snd r)) = Ok w ->
       (w = userId c ->
          exists snap, fst (getChatSnapshot session cid (snd r)) = Ok snap /\
            snap_messages snap = msgs /\ snap_roadmap snap = rm /\ snap_title snap = title c') /\
       (w <> userId c -> fst (getChatSnapshot session cid (snd r)) = Throw not_owned_msg)) /\
    (opt_truthy (s_name session) = false -> whoami session (snd r) = ensureGuestUserId (snd r)) /\
    ((opt_truthy (s_name session) = true \/ trim_or_null (s_email session) = None) ->
     exists snap, fst (getChatSnapshot session cid (snd r)) = Ok snap /\
       snap_messages snap = msgs /\ snap_roadmap snap = rm /\ snap_title snap = title c').
Proof.
  cbv zeta. subst uid.
  destruct (users_only_state _ s (users_only_resolve session)) as (Hch & _ & _).
  assert (Hagain := resolve_again session s).
  unfold saveChatSnapshot, find_chat, update_chat, bind, gets, ret.
  destruct (resolveUserIdFromSession session s) as [o s1] eqn:E.
  simpl in Hr, Hch, Hagain. subst o.
  rewrite Hch, Hc, Nat.eqb_refl. simpl. rewrite Hch, Hc. simpl.
  split; [reflexivity|].
  eexists. split; [reflexivity|]. split; [reflexivity|].
  split; [destruct (opt_truthy titleFallback && negb (opt_truthy (title c))); reflexivity|].
  do 4 (split; [destruct (opt_truthy titleFallback && negb (opt_truthy (title c))); reflexivity|]).
  split; [|split; [intros Hn; unfold whoami; rewrite Hn; reflexivity|]].
  { intros w Hw. split.
    - intros ->. eexists. split.
      + eapply getChatSnapshot_owned.
        2: { simpl. rewrite lookup_insert, decide_True by reflexivity. reflexivity. }
        rewrite Hw.
        destruct (opt_truthy titleFallback && negb (opt_truthy (title c))); reflexivity.
      + simpl. split; [reflexivity|]. split; reflexivity.
    - intros Hne. apply (getChatSnapshot_not_owner _ _ _ w Hw).
      simpl. rewrite lookup_insert, decide_True by reflexivity.
      destruct (opt_truthy titleFallback && negb (opt_truthy (title c))); simpl; intros Heq; apply Hne; symmetry; exact Heq. }
  intros Hs. eexists. split.
  - eapply getChatSnapshot_owned.
    2: { simpl. rewrite lookup_insert, decide_True by reflexivity. reflexivity. }
    rewrite (whoami_resolve_agree session _ Hs).
    rewrite Hagain by reflexivity. simpl.
    destruct (opt_truthy titleFallback && negb (opt_truthy (title c))); reflexivity.
  - simpl. split; [reflexivity|]. split; reflexivity.
Qed.

(** C4, at alice's chat "c1" of the example store. *)
Lemma saveChatSnapshot_overwrites_meta_witness :
  fst (resolveUserIdFromSession alice db_example) = Ok 0 /\
  chats db_example !! "c1" = Some chat_example /\
  fst (saveChatSnapshot alice "c1" [msg_ai_example] None (Some "T") db_example) = Ok ResultOk.
Proof.
  split; [reflexivity|]. split; [reflexivity|].
  exact (proj1 (saveChatSnapshot_overwrites_meta alice db_example "c1" chat_example 0
    [msg_ai_example] None (Some "T") eq_refl eq_refl eq_refl)).
Defined.

(** C4: the claim as stated fails twice.  Chat "c1" has a UI map, and after
    [saveChatSnapshot] its meta holds no UI map and no event log.  And for
    alice signed in with an email but no name, the save succeeds while the
    [getChatSnapshot] right after it is refused: [whoami] resolves her to
    the guest user, who does not own the chat. *)
Lemma saveChatSnapshot_counterexample :
  ui meta_example <> None /\
  option_map meta (chats (snd (saveChatSnapshot alice "c1" [msg_ai_example] None None
                                 db_example)) !! "c1") =
    Some (Some {| messages := Some [msg_ai_example]; meta_roadmap := Some JNull;
                  ui := None; events := None |}) /\
  fst (saveChatSnapshot alice_email_only "c1" [msg_ai_example] None None db_example) =
    Ok ResultOk /\
  fst (getChatSnapshot alice_email_only "c1"
         (snd (saveChatSnapshot alice_email_only "c1" [msg_ai_example] None None
                 db_example))) = Throw not_owned_msg.
Proof.
  split; [discriminate|].
  split; [vm_compute; reflexivity|].
  split; vm_compute; reflexivity.
Qed.

(** *** Ownership failures *)

Lemma assertOwnChat_refused (cid : string) (uid : nat) (s : db) :
  match chats s !! cid with Some c => userId c <> uid | None => True end ->
  assertOwnChat cid uid s = (Throw not_owned_msg, s).
Proof.
  intros Hn. unfold assertOwnChat, find_chat, bind, gets, throw.
  destruct (chats s !! cid) as [c|]; [|reflexivity].
  apply Nat.eqb_neq in Hn. rewrite Hn. reflexivity.
Qed.

(** C5: the claim does not hold of the code.  When the chat is missing or
    owned by someone other than the caller ([whoami]), [getChatSnapshot],
    [appendTurn], [renameChat] and [deleteChat] all end in the error thrown
    by [assertOwnChat], which no code catches, and they write nothing.
    [saveChatSnapshot] and [savePlanAsPathway] do the same check themselves
    and return the error as a value. *)
Theorem ownership_failure_throws (session : Session) (s : db) (cid : string) (uid : nat)
    (Hw : fst (whoami session s) = Ok uid)
    (Hn : match chats s !! cid with Some c => userId c <> uid | None => True end)
    (userMsg aiMsg : ChatMessage) (roadmap : option json)
    (uiPatch : option (gmap string json)) (t : string) :
  getChatSnapshot session cid s = (Throw not_owned_msg, snd (whoami session s)) /\
  appendTurn session cid userMsg aiMsg roadmap uiPatch s =
    (Throw not_owned_msg, snd (whoami session s)) /\
  renameChat session cid t s = (Throw not_owned_msg, snd (whoami session s)) /\
  deleteChat session cid s = (Throw not_owned_msg, snd (whoami session s)) /\
  (forall msgs rm tf, fst (resolveUserIdFromSession session s) = Ok uid ->
   fst (saveChatSnapshot session cid msgs rm tf s) = Ok (ResultErr not_owned_msg)) /\
  (forall plan pt st, fst (pathway_user_id session s) = Ok (Some uid) ->
   fst (savePlanAsPathway session cid plan pt st s) = Ok (PathwayErr not_owned_msg)).
Proof.
  destruct (users_only_state _ s (users_only_whoami session)) as (Hch & _ & _).
  assert (Hn1 : match chats (snd (whoami session s)) !! cid with
                | Some c => userId c <> uid | None => True end) by (rewrite Hch; exact Hn).
  assert (Ha := assertOwnChat_refused cid uid _ Hn1).
  unfold getChatSnapshot, appendTurn, renameChat, deleteChat, bind.
  destruct (whoami session s) as [o s1]. simpl in Hw, Ha |- *. subst o.
  rewrite Ha.
  split; [reflexivity|]. split; [reflexivity|]. split; [reflexivity|].
  split; [reflexivity|]. split.
  - intros msgs rm tf Hr.
    destruct (users_only_state _ s (users_only_resolve session)) as (Hch' & _ & _).
    unfold saveChatSnapshot, find_chat, bind, gets, ret.
    destruct (resolveUserIdFromSession session s) as [o s2]. simpl in Hr, Hch'. subst o.
    rewrite Hch'. destruct (chats s !! cid) as [c|]; [|reflexivity].
    apply Nat.eqb_neq in Hn. rewrite Hn. reflexivity.
  - intros plan pt st Hp.
    destruct (users_only_state _ s (users_only_pathway_user_id session)) as (Hch' & _ & _).
    unfold savePlanAsPathway, find_chat, bind, gets, ret.
    destruct (pathway_user_id session s) as [o s2]. simpl in Hp, Hch'. subst o.
    rewrite Hch'. destruct (chats s !! cid) as [c|]; [|reflexivity].
    apply Nat.eqb_neq in Hn. rewrite Hn. reflexivity.
Qed.

(** C5, at bob's session (user 1 once created) and alice's chat "c1". *)
Lemma ownership_failure_throws_witness :
  fst (whoami bob db_example) = Ok 1 /\
  getChatSnapshot bob "c1" db_example = (Throw not_owned_msg, snd (whoami bob db_example)).
Proof.
  split; [reflexivity|].
  exact (proj1 (ownership_failure_throws bob db_example "c1" 1 eq_refl
    ltac:(vm_compute; discriminate) msg_user_example msg_ai_example None None "t")).
Defined.

(** *** Who the caller is *)

(** [createChat], [listChats], [getChatSnapshot], [appendTurn],
    [renameChat] and [deleteChat] read the session only through [whoami]. *)
Lemma whoami_callers (session session' : Session) (s : db) :
  whoami session' s = whoami session s ->
  (forall cid t im ir, createChat session' cid t im ir s = createChat session cid t im ir s) /\
  listChats session' s = listChats session s /\
  (forall cid, getChatSnapshot session' cid s = getChatSnapshot session cid s) /\
  (forall cid u a r p, appendTurn session' cid u a r p s = appendTurn session cid u a r p s) /\
  (forall cid t, renameChat session' cid t s = renameChat session cid t s) /\
  (forall cid, deleteChat session' cid s = deleteChat session cid s).
Proof.
  intros H.
  repeat split; intros;
    cbv beta delta [createChat listChats getChatSnapshot appendTurn renameChat deleteChat bind];
    rewrite H; reflexivity.
Qed.

(** [saveChatSnapshot] reads the session only through
    [resolveUserIdFromSession]. *)
Lemma resolve_callers (session session' : Session) (s : db) :
  resolveUserIdFromSession session' s = resolveUserIdFromSession session s ->
  forall cid msgs rm tf,
    saveChatSnapshot session' cid msgs rm tf s = saveChatSnapshot session cid msgs rm tf s.
Proof.
  intros H cid msgs rm tf. cbv beta delta [saveChatSnapshot bind]. rewrite H. reflexivity.
Qed.

(** C6 (as amended): [resolveUserIdFromSession] applies the stated
    precedence to the trimmed session fields: with an email, the first user
    with that email (its name refreshed to the session's name when there is
    one) or else a new user with that email; with a name only, the most
    recently created user with that name or else a new nameless-email user;
    otherwise the guest user, found by its sentinel email or created.  But
    only [saveChatSnapshot] calls it directly: its outcome depends on the
    session only through what [resolveUserIdFromSession] returns.
    [createChat], [listChats], [getChatSnapshot], [appendTurn], [renameChat]
    and [deleteChat] depend on the session only through what [whoami]
    returns, and [whoami] calls it only when the raw session name is truthy
    and otherwise goes straight to the guest user, whatever the email; and
    [savePlanAsPathway] looks the user up by the raw email without creating
    one, and uses the guest user only when there is no email. *)
Theorem identity_resolution (session : Session) (s : db) :
  let em := trim_or_null (s_email session) in
  let nm := trim_or_null (s_name session) in
  let by_email e := List.find (fun u => opt_eqb (email u) e) (users s) in
  let by_name n := List.find (fun u => opt_eqb (name u) n) (rev (users s)) in
  (forall e, em = Some e ->
     (forall u, by_email e = Some u ->
        resolveUserIdFromSession session s =
          (Ok (user_id u),
           match nm with
           | Some n => set_users (map (rename_user (user_id u) n) (users s)) s
           | None => s
           end)) /\
     (by_email e = None ->
        resolveUserIdFromSession session s =
          (Ok (next_id s),
           set_users (users s ++ [{| user_id := next_id s; email := Some e; name := nm |}])%list
             (bump_id s)))) /\
  (em = None -> forall n, nm = Some n ->
     (forall u, by_name n = Some u -> resolveUserIdFromSession session s = (Ok (user_id u), s)) /\
     (by_name n = None ->
        resolveUserIdFromSession session s =
          (Ok (next_id s),
           set_users (users s ++ [{| user_id := next_id s; email := None; name := Some n |}])%list
             (bump_id s)))) /\
  (em = None -> nm = None -> resolveUserIdFromSession session s = ensureGuestUserId s) /\
  (forall u, by_email guest_email = Some u -> ensureGuestUserId s = (Ok (user_id u), s)) /\
  (by_email guest_email = None ->
     ensureGuestUserId s =
       (Ok (next_id s),
        set_users (users s ++ [{| user_id := next_id s; email := Some guest_email;
                                  name := Some "Guest" |}])%list (bump_id s))) /\
  whoami session s =
    (if opt_truthy (s_name session) then resolveUserIdFromSession session s
     else ensureGuestUserId s) /\
  (forall e, s_email session = Some e -> str_truthy e = true ->
     pathway_user_id session s = (Ok (option_map user_id (by_email e)), s)) /\
  (opt_truthy (s_email session) = false ->
     pathway_user_id session s =
       match ensureGuestUserId s with
       | (Ok i, s') => (Ok (Some i), s')
       | (Throw e, s') => (Throw e, s')
       end) /\
  (forall session', whoami session' s = whoami session s ->
     (forall cid t im ir, createChat session' cid t im ir s = createChat session cid t im ir s) /\
     listChats session' s = listChats session s /\
     (forall cid, getChatSnapshot session' cid s = getChatSnapshot session cid s) /\
     (forall cid u a r p, appendTurn session' cid u a r p s = appendTurn session cid u a r p s) /\
     (forall cid t, renameChat session' cid t s = renameChat session cid t s) /\
     (forall cid, deleteChat session' cid s = deleteChat session cid s)) /\
  (forall session', resolveUserIdFromSession session' s = resolveUserIdFromSession session s ->
     forall cid msgs rm tf,
       saveChatSnapshot session' cid msgs rm tf s = saveChatSnapshot session cid msgs rm tf s).
Proof.
  cbv zeta.
  assert (Hw := fun session' => whoami_callers session session' s).
  assert (Hr := fun session' => resolve_callers session session' s).
  split; [|split; [|split; [|split; [|split; [|split; [|split; [|split; [|split]]]]]]]];
    [| | | | | | | |exact Hw|exact Hr].
  all: unfold resolveUserIdFromSession, ensureGuestUserId, upsert_user_by_email,
    find_user_by_email, find_last_user_by_name, create_user, fresh_id, whoami,
    pathway_user_id, bind, gets, modify, ret.
  - intros e He. rewrite He. split.
    + intros u Hu. rewrite Hu. destruct (trim_or_null (s_name session)); reflexivity.
    + intros Hu. rewrite Hu. reflexivity.
  - intros He n Hn. rewrite He, Hn. split.
    + intros u Hu. rewrite Hu. reflexivity.
    + intros Hu. rewrite Hu. reflexivity.
  - intros He Hn. rewrite He, Hn. reflexivity.
  - intros u Hu. rewrite Hu. reflexivity.
  - intros Hu. rewrite Hu. reflexivity.
  - destruct (opt_truthy (s_name session)); reflexivity.
  - intros e He Ht. rewrite He. simpl. rewrite Ht. reflexivity.
  - intros Ht. rewrite Ht. reflexivity.
Qed.

(** C6: the claim as stated fails.  Alice is signed in with her email and
    no name; the stated precedence picks her user 0 (as
    [resolveUserIdFromSession] does), but [whoami] creates and returns the
    guest user 1, so [appendTurn] on her own chat "c1" is refused, and a
    chat she creates is owned by the guest user. *)
Lemma identity_resolution_counterexample :
  fst (resolveUserIdFromSession alice_email_only db_example) = Ok 0 /\
  fst (whoami alice_email_only db_example) = Ok 1 /\
  fst (appendTurn alice_email_only "c1" msg_user_example msg_ai_example None None db_example) =
    Throw not_owned_msg /\
  option_map userId
    (chats (snd (createChat alice_email_only "c2" None None None db_example)) !! "c2") =
    Some 1.
Proof. split; [|split; [|split]]; vm_compute; reflexivity. Qed.

(** *** Saving a plan as a pathway *)

Lemma find_is_head_filter {A} (f : A -> bool) (l : list A) :
  List.find f l = head (List.filter f l).
Proof. induction l as [|x l IH]; simpl; [reflexivity|]. destruct (f x); auto. Qed.

Lemma rows_of_app (cid : string) (l1 l2 : list Pathway) :
  rows_of cid (l1 ++ l2) = (rows_of cid l1 ++ rows_of cid l2)%list.
Proof.
  unfold rows_of. induction l1 as [|x l1 IH]; simpl; [reflexivity|].
  destruct (String.eqb (chatId x) cid); simpl; rewrite IH; reflexivity.
Qed.

Lemma update_pathway_chatId (i : nat) (t : option string) (st : option PathwayStatus)
    (plan : json) (p : Pathway) :
  chatId (update_pathway i t st plan p) = chatId p.
Proof. unfold update_pathway. destruct (Nat.eqb (pathway_id p) i); reflexivity. Qed.

Lemma rows_of_map_update (cid : string) (i : nat) (t : option string)
    (st : option PathwayStatus) (plan : json) (ps : list Pathway) :
  rows_of cid (map (update_pathway i t st plan) ps) =
  map (update_pathway i t st plan) (rows_of cid ps).
Proof.
  unfold rows_of. induction ps as [|p ps IH]; simpl; [reflexivity|].
  rewrite update_pathway_chatId. destruct (String.eqb (chatId p) cid); simpl; rewrite IH; reflexivity.
Qed.

(** One call on a chat the caller owns: update the chat's first pathway
    row in place, or append a new row. *)
Lemma savePlanAsPathway_owned (session : Session) (s s1 : db) (cid : string) (c : Chat)
    (u : nat) (plan : json) (t : option string) (st : option PathwayStatus) :
  pathway_user_id session s = (Ok (Some u), s1) ->
  chats s !! cid = Some c -> userId c = u ->
  savePlanAsPathway session cid plan t st s =
  match List.find (fun p => String.eqb (chatId p) cid) (pathways s) with
  | Some p0 =>
      (Ok (PathwaySaved (pathway_id p0) false),
       set_pathways (map (update_pathway (pathway_id p0) t st plan) (pathways s)) s1)
  | None =>
      (Ok (PathwaySaved (next_id s1) true),
       set_pathways (pathways s ++
         [{| pathway_id := next_id s1; pathway_userId := u; chatId := cid;
             pathway_title := t; status := match st with Some x => x | None => DRAFT end;
             planSpec := plan |}])%list (bump_id s1))
  end.
Proof.
  intros E Hc Ho.
  destruct (users_only_state _ s (users_only_pathway_user_id session)) as (Hch & Hps & _).
  rewrite E in Hch, Hps. simpl in Hch, Hps.
  unfold savePlanAsPathway, find_chat, find_pathway, fresh_id, bind, gets, modify, ret.
  rewrite E. simpl. rewrite Hch, Hc. subst u. rewrite Nat.eqb_refl. simpl. rewrite Hps.
  destruct (List.find _ (pathways s)); simpl; rewrite ?Hps; reflexivity.
Qed.

Lemma update_pathway_self (t : option string) (st : option PathwayStatus) (plan : json)
    (p : Pathway) :
  update_pathway (pathway_id p) t st plan p =
  {| pathway_id := pathway_id p; pathway_userId := pathway_userId p; chatId := chatId p;
     pathway_title := match t with Some _ => t | None => pathway_title p end;
     status := match st with Some x => x | None => status p end;
     planSpec := plan |}.
Proof. unfold update_pathway. rewrite Nat.eqb_refl. reflexivity. Qed.

Lemma find_rows_of (cid : string) (ps : list Pathway) :
  List.find (fun p => String.eqb (chatId p) cid) ps = head (rows_of cid ps).
Proof. apply find_is_head_filter. Qed.

(** C7: on a chat the caller owns, [savePlanAsPathway] updates the chat's
    pathway row in place when there is one (result [created = false], no
    row added, the new plan stored, and an omitted title or status left as
    it was), and otherwise appends a new row (result [created = true])
    whose status defaults to [DRAFT].  Hence, starting from at most one
    row for the chat (the schema's unique [chatId]), two calls leave
    exactly one row for the chat, holding the second call's plan; the
    second call reports [created = false] and the first reports
    [created = true] exactly when there was no row before. *)
Theorem savePlanAsPathway_upsert (session : Session) (s : db) (cid : string) (c : Chat)
    (u : nat)
    (Hu : fst (pathway_user_id session s) = Ok (Some u))
    (Hc : chats s !! cid = Some c) (Ho : userId c = u) :
  (forall plan t st p0,
     List.find (fun p => String.eqb (chatId p) cid) (pathways s) = Some p0 ->
     let r := savePlanAsPathway session cid plan t st s in
     fst r = Ok (PathwaySaved (pathway_id p0) false) /\
     length (pathways (snd r)) = length (pathways s) /\
     List.find (fun p => String.eqb (chatId p) cid) (pathways (snd r)) =
       Some {| pathway_id := pathway_id p0; pathway_userId := pathway_userId p0;
               chatId := chatId p0;
               pathway_title := match t with Some _ => t | None => pathway_title p0 end;
               status := match st with Some x => x | None => status p0 end;
               planSpec := plan |}) /\
  (forall plan t st,
     List.find (fun p => String.eqb (chatId p) cid) (pathways s) = None ->
     let r := savePlanAsPathway session cid plan t st s in
     exists i, fst r = Ok (PathwaySaved i true) /\
       pathways (snd r) =
         (pathways s ++ [{| pathway_id := i; pathway_userId := u; chatId := cid;
                            pathway_title := t;
                            status := match st with Some x => x | None => DRAFT end;
                            planSpec := plan |}])%list) /\
  (length (rows_of cid (pathways s)) <= 1 ->
   forall plan1 plan2 t1 t2 st1 st2,
     let r1 := savePlanAsPathway session cid plan1 t1 st1 s in
     let r2 := savePlanAsPathway session cid plan2 t2 st2 (snd r1) in
     exists p, rows_of cid (pathways (snd r2)) = [p] /\ planSpec p = plan2 /\
       fst r2 = Ok (PathwaySaved (pathway_id p) false) /\
       fst r1 = Ok (PathwaySaved (pathway_id p)
                      (match rows_of cid (pathways s) with [] => true | _ => false end))).
Proof.
  cbv zeta.
  destruct (users_only_state _ s (users_only_pathway_user_id session)) as (Hch & Hps & _).
  assert (Hagain := pathway_user_id_again session s).
  destruct (pathway_user_id session s) as [o s1] eqn:E. simpl in Hu, Hch, Hps, Hagain.
  subst o.
  split; [|split].
  - intros plan t st p0 Hf.
    rewrite (savePlanAsPathway_owned session s s1 cid c u plan t st E Hc Ho), Hf. simpl.
    rewrite length_map. split; [reflexivity|]. split; [reflexivity|].
    rewrite find_rows_of, rows_of_map_update. rewrite find_rows_of in Hf.
    destruct (rows_of cid (pathways s)) as [|x xs]; simpl in Hf |- *; [discriminate|].
    injection Hf as ->. rewrite update_pathway_self. reflexivity.
  - intros plan t st Hf.
    rewrite (savePlanAsPathway_owned session s s1 cid c u plan t st E Hc Ho), Hf. simpl.
    eexists. split; reflexivity.
  - intros Hle plan1 plan2 t1 t2 st1 st2.
    rewrite (savePlanAsPathway_owned session s s1 cid c u plan1 t1 st1 E Hc Ho).
    rewrite find_rows_of.
    destruct (rows_of cid (pathways s)) as [|p0 [|p1 rest]] eqn:R; simpl in Hle |- *;
      [| |lia].
    + set (s2 := set_pathways _ (bump_id s1)).
      assert (E2 := Hagain s2 eq_refl).
      destruct (pathway_user_id session s2) as [o2 s3] eqn:F. simpl in E2. subst o2.
      rewrite (savePlanAsPathway_owned session s2 s3 cid c u plan2 t2 st2 F) by
        (try exact Ho; unfold s2; simpl; rewrite Hch; exact Hc).
      unfold s2 at 1. simpl.
      rewrite find_app, find_rows_of, R. simpl. rewrite String.eqb_refl. simpl.
      eexists. split.
      * rewrite rows_of_map_update, rows_of_app, R. unfold rows_of. simpl.
        rewrite String.eqb_refl. reflexivity.
      * unfold update_pathway. simpl. rewrite Nat.eqb_refl.
        split; [reflexivity|]. split; reflexivity.
    + set (s2 := set_pathways _ s1).
      assert (E2 := Hagain s2 eq_refl).
      destruct (pathway_user_id session s2) as [o2 s3] eqn:F. simpl in E2. subst o2.
      rewrite (savePlanAsPathway_owned session s2 s3 cid c u plan2 t2 st2 F) by
        (try exact Ho; unfold s2; simpl; rewrite Hch; exact Hc).
      unfold s2 at 1. simpl.
      rewrite find_rows_of, rows_of_map_update, R. simpl.
      eexists. split.
      * rewrite !rows_of_map_update, R. reflexivity.
      * rewrite !update_pathway_self. simpl. split; [reflexivity|]. split; reflexivity.
Qed.

(** C7, at alice's chat "c1" of the example store, which has no pathway. *)
Lemma savePlanAsPathway_upsert_witness :
  fst (pathway_user_id alice db_example) = Ok (Some 0) /\
  chats db_example !! "c1" = Some chat_example /\
  exists i, fst (savePlanAsPathway alice "c1" (JArr []) None None db_example) =
              Ok (PathwaySaved i true).
Proof.
  split; [reflexivity|]. split; [reflexivity|].
  destruct (proj1 (proj2 (savePlanAsPathway_upsert alice db_example "c1" chat_example 0
              eq_refl eq_refl eq_refl)) (JArr []) None None eq_refl) as [i [H _]].
  exists i. exact H.
Defined.

(** *** Soft deletion *)

Section SoftDelete.
Variable cid : string.
Variable d : option Z.

Lemma set_deleted_lookup (s : db) :
  chats (set_deleted cid d s) !! cid = with_deletedAt d <$> chats s !! cid.
Proof. unfold set_deleted, set_chats. simpl. rewrite lookup_alter, decide_True by reflexivity. reflexivity. Qed.

Lemma dc_ret {A} (a : A) : deleted_commutes cid d (ret a).
Proof. intros s. reflexivity. Qed.

Lemma dc_gets_now : deleted_commutes cid d (gets now).
Proof. intros s. reflexivity. Qed.

Lemma dc_bind {A B} (m : M A) (k : A -> M B) :
  deleted_commutes cid d m -> (forall a, deleted_commutes cid d (k a)) ->
  deleted_commutes cid d (bind m k).
Proof.
  intros Hm Hk s. unfold bind. rewrite Hm. unfold map_state.
  destruct (m s) as [[a|e] s']; simpl; [apply Hk | reflexivity].
Qed.

Lemma dc_transaction {A} (m : M A) :
  deleted_commutes cid d m -> deleted_commutes cid d (transaction m).
Proof.
  intros Hm s. unfold transaction. rewrite Hm. unfold map_state.
  destruct (m s) as [[a|e] s']; reflexivity.
Qed.

(** A step that reads the chat sees it with the marker set, which makes no
    difference to a continuation that does not look at the marker. *)
Lemma dc_find_chat {A} (k : option Chat -> M A) :
  (forall oc, k (with_deletedAt d <$> oc) = k oc) ->
  (forall oc, deleted_commutes cid d (k oc)) ->
  deleted_commutes cid d (bind (find_chat cid) k).
Proof.
  intros Hk Hc s. unfold bind, find_chat, gets.
  rewrite set_deleted_lookup, Hk. apply Hc.
Qed.

Lemma dc_update_chat (f : Chat -> Chat) :
  (forall c, f (with_deletedAt d c) = with_deletedAt d (f c)) ->
  deleted_commutes cid d (update_chat cid f).
Proof.
  intros Hf s. unfold update_chat, map_state.
  rewrite set_deleted_lookup. destruct (chats s !! cid) as [c|] eqn:E; simpl; [|reflexivity].
  rewrite Hf. unfold set_deleted, set_chats. simpl.
  rewrite insert_alter_eq, alter_insert, decide_True by reflexivity. reflexivity.
Qed.

Lemma dc_assertOwnChat (uid : nat) : deleted_commutes cid d (assertOwnChat cid uid).
Proof.
  unfold assertOwnChat. apply dc_find_chat; [intros [c|]; reflexivity|].
  intros [c|]; [destruct (Nat.eqb (userId c) uid)|]; intros s; reflexivity.
Qed.

Lemma dc_whoami (session : Session) : deleted_commutes cid d (whoami session).
Proof. apply users_only_deleted, users_only_whoami. Qed.

Lemma dc_resolve (session : Session) :
  deleted_commutes cid d (resolveUserIdFromSession session).
Proof. apply users_only_deleted, users_only_resolve. Qed.

End SoftDelete.

(** Every chat [listChats] returns is the caller's and carries no marker. *)
Lemma listChats_items (session : Session) (s : db) (items : list ChatListItem)
    (it : ChatListItem) :
  fst (listChats session s) = Ok items -> In it items ->
  exists c, chats s !! item_id it = Some c /\ deletedAt c = None /\
            fst (whoami session s) = Ok (userId c).
Proof.
  destruct (users_only_state _ s (users_only_whoami session)) as (Hch & _ & _).
  unfold listChats, bind, gets.
  destruct (whoami session s) as [[uid|e] s1]; simpl in Hch |- *; [|discriminate].
  intros H Hin. injection H as <-.
  apply (Permutation_in _ (merge_sort_Permutation _ _)) in Hin.
  apply in_map_iff in Hin as [[i c] [<- Hin]].
  apply List.filter_In in Hin as [Hin Hb].
  apply list_elem_of_In, elem_of_map_to_list in Hin. rewrite Hch in Hin.
  apply andb_prop in Hb as [Hu Hd]. apply Nat.eqb_eq in Hu.
  exists c. simpl. split; [exact Hin|]. split; [destruct (deletedAt c); [discriminate|reflexivity]|].
  rewrite Hu. reflexivity.
Qed.

(** A live chat of the caller is listed. *)
Lemma listChats_live (session : Session) (s : db) (cid : string) (c : Chat)
    (items : list ChatListItem) :
  chats s !! cid = Some c -> deletedAt c = None ->
  fst (whoami session s) = Ok (userId c) -> fst (listChats session s) = Ok items ->
  exists it, In it items /\ item_id it = cid.
Proof.
  intros Hc Hd Hw.
  destruct (users_only_state _ s (users_only_whoami session)) as (Hch & _ & _).
  unfold listChats, bind, gets.
  destruct (whoami session s) as [o s1]; simpl in Hw, Hch |- *. subst o.
  intros H. injection H as <-.
  exists {| item_id := cid; item_title := title c; item_updatedAt := updatedAt c;
            item_startedAt := startedAt c |}. split; [|reflexivity].
  eapply Permutation_in; [symmetry; apply merge_sort_Permutation|].
  apply in_map_iff. exists (cid, c). split; [reflexivity|].
  apply List.filter_In. split.
  - apply list_elem_of_In, elem_of_map_to_list. rewrite Hch. exact Hc.
  - rewrite Hd, Nat.eqb_refl. reflexivity.
Qed.

(** C10: setting or clearing a chat's deletion marker changes nothing for
    [getChatSnapshot], [appendTurn], [saveChatSnapshot] and [renameChat]
    on that chat: each returns the same result, and the state it leaves
    differs only by the marker.  None of their checks reads the marker.
    A successful [deleteChat] sets the marker to the current time;
    [listChats] never returns a chat whose marker is set, and does return
    a chat of the caller whose marker is not set. *)
Theorem soft_delete_hides_only_from_list (session : Session) (s : db) (cid : string)
    (d : option Z) :
  getChatSnapshot session cid (set_deleted cid d s) =
    map_state (set_deleted cid d) (getChatSnapshot session cid s) /\
  (forall userMsg aiMsg roadmap uiPatch,
     appendTurn session cid userMsg aiMsg roadmap uiPatch (set_deleted cid d s) =
       map_state (set_deleted cid d) (appendTurn session cid userMsg aiMsg roadmap uiPatch s)) /\
  (forall msgs roadmap titleFallback,
     saveChatSnapshot session cid msgs roadmap titleFallback (set_deleted cid d s) =
       map_state (set_deleted cid d) (saveChatSnapshot session cid msgs roadmap titleFallback s)) /\
  (forall t, renameChat session cid t (set_deleted cid d s) =
               map_state (set_deleted cid d) (renameChat session cid t s)) /\
  (fst (deleteChat session cid s) = Ok ResultOk ->
   snd (deleteChat session cid s) = set_deleted cid (Some (now s)) (snd (whoami session s))) /\
  (forall t items, fst (listChats session (set_deleted cid (Some t) s)) = Ok items ->
   forall it, In it items -> item_id it <> cid) /\
  (forall c items, chats s !! cid = Some c -> deletedAt c = None ->
   fst (whoami session s) = Ok (userId c) -> fst (listChats session s) = Ok items ->
   exists it, In it items /\ item_id it = cid).
Proof.
  split; [|split; [|split; [|split; [|split; [|split]]]]].
  - revert s. unfold getChatSnapshot.
    apply dc_bind; [apply dc_whoami|]. intros uid.
    apply dc_bind; [apply dc_assertOwnChat|]. intros _.
    apply dc_find_chat; [intros [c|]; reflexivity|].
    intros [c|]; intros s'; reflexivity.
  - intros um am rm up. revert s. unfold appendTurn.
    apply dc_bind; [apply dc_whoami|]. intros uid.
    apply dc_bind; [apply dc_assertOwnChat|]. intros _.
    apply dc_bind; [|intros _; apply dc_ret].
    apply dc_transaction, dc_find_chat; [intros [c|]; reflexivity|]. intros oc.
    apply dc_bind; [apply dc_gets_now|]. intros t.
    apply dc_update_chat. intros c0.
    destruct (negb _ && _); [destruct (List.find _ _)|]; reflexivity.
  - intros msgs rm tf. revert s. unfold saveChatSnapshot.
    apply dc_bind; [apply dc_resolve|]. intros uid.
    apply dc_find_chat; [intros [c|]; reflexivity|].
    intros [c|]; [destruct (Nat.eqb (userId c) uid)|]; try (intros s'; reflexivity).
    apply dc_bind; [|intros _; apply dc_ret].
    apply dc_update_chat. intros c0. destruct (_ && _); reflexivity.
  - intros t. revert s. unfold renameChat.
    apply dc_bind; [apply dc_whoami|]. intros uid.
    apply dc_bind; [apply dc_assertOwnChat|]. intros _.
    apply dc_bind; [|intros _; apply dc_ret].
    apply dc_update_chat. intros c0. reflexivity.
  - destruct (users_only_state _ s (users_only_whoami session)) as (Hch & _ & Hnow).
    unfold deleteChat, assertOwnChat, find_chat, update_chat, bind, gets, ret, throw.
    destruct (whoami session s) as [[uid|e] s1]; simpl in Hch, Hnow |- *; [|discriminate].
    destruct (chats s1 !! cid) as [c|] eqn:E; simpl; [|discriminate].
    destruct (Nat.eqb (userId c) uid); simpl; [|discriminate].
    rewrite E. simpl. intros _. rewrite Hnow.
    unfold set_deleted, set_chats. f_equal.
    apply map_eq. intros j. rewrite lookup_insert, lookup_alter.
    destruct (decide (cid = j)) as [<-|?]; [rewrite E|]; reflexivity.
  - intros t items H it Hin Heq.
    destruct (listChats_items session _ items it H Hin) as (c & Hc & Hd & _).
    rewrite Heq, set_deleted_lookup in Hc.
    destruct (chats s !! cid); simpl in Hc; [|discriminate].
    injection Hc as <-. discriminate.
  - intros c items. apply listChats_live.
Qed.

(** ** Theorems: more of the store *)

(** *** Resolving the caller again changes nothing *)

Lemma rename_user_idem (i : nat) (n : string) (u : User) :
  rename_user i n (rename_user i n u) = rename_user i n u.
Proof.
  unfold rename_user. destruct (Nat.eqb (user_id u) i) eqn:E; simpl; rewrite ?E; reflexivity.
Qed.

Lemma map_rename_idem (i : nat) (n : string) (us : list User) :
  map (rename_user i n) (map (rename_user i n) us) = map (rename_user i n) us.
Proof. rewrite map_map. apply map_ext. apply rename_user_idem. Qed.

Lemma map_rename_below (i : nat) (n : string) (us : list User) :
  Forall (fun u => (user_id u < i)%nat) us -> map (rename_user i n) us = us.
Proof.
  induction 1 as [|u us Hu _ IH]; simpl; [reflexivity|]. rewrite IH.
  unfold rename_user. replace (Nat.eqb (user_id u) i) with false; [reflexivity|].
  symmetry; apply Nat.eqb_neq; lia.
Qed.

Lemma upsert_idem (e : string) (un cn : option string) (s : db) :
  un = None \/ (un = cn /\ ids_below s) ->
  upsert_user_by_email e un cn (snd (upsert_user_by_email e un cn s)) =
  upsert_user_by_email e un cn s.
Proof.
  intros Hun.
  unfold upsert_user_by_email, find_user_by_email, create_user, fresh_id, bind, gets,
    modify, ret.
  destruct (List.find _ (users s)) as [u|] eqn:F.
  - destruct un as [n|]; simpl.
    + rewrite find_map_rename, F. simpl. rewrite (proj2 (rename_user_email _ n u)).
      unfold set_users; simpl. rewrite map_rename_idem. reflexivity.
    + rewrite F. reflexivity.
  - simpl. rewrite find_app, F. simpl. rewrite String.eqb_refl.
    destruct un as [n|]; simpl; [|reflexivity].
    destruct Hun as [Hun|[Hun Hb]]; [discriminate|subst cn].
    unfold set_users; simpl. rewrite map_app, map_rename_below by exact Hb.
    simpl. unfold rename_user; simpl. rewrite Nat.eqb_refl. reflexivity.
Qed.

Lemma resolve_idem (session : Session) (s : db) :
  ids_below s ->
  resolveUserIdFromSession session (snd (resolveUserIdFromSession session s)) =
  resolveUserIdFromSession session s.
Proof.
  intros Hb. unfold resolveUserIdFromSession.
  destruct (trim_or_null (s_email session)) as [e|]; [apply upsert_idem; auto|].
  destruct (trim_or_null (s_name session)) as [n|]; [|apply upsert_idem; auto].
  unfold find_last_user_by_name, create_user, fresh_id, bind, gets, modify, ret.
  destruct (List.find _ (rev (users s))) as [u|] eqn:F; simpl.
  - rewrite F. reflexivity.
  - rewrite rev_unit. simpl. rewrite String.eqb_refl. reflexivity.
Qed.

Lemma ids_below_upsert (e : string) (un cn : option string) (s : db) :
  ids_below s -> ids_below (snd (upsert_user_by_email e un cn s)).
Proof.
  unfold ids_below, upsert_user_by_email, find_user_by_email, create_user, fresh_id, bind,
    gets, modify, ret.
  intros Hb. destruct (List.find _ (users s)) as [u|]; [destruct un as [n|]|]; simpl.
  - apply List.Forall_map. eapply List.Forall_impl; [|exact Hb].
    intros x Hx. simpl. rewrite (proj2 (rename_user_email _ n x)). exact Hx.
  - exact Hb.
  - apply List.Forall_app. split.
    + eapply List.Forall_impl; [|exact Hb]. simpl. intros x Hx. lia.
    + constructor; [simpl; lia|constructor].
Qed.

Lemma ids_below_resolve (session : Session) (s : db) :
  ids_below s -> ids_below (snd (resolveUserIdFromSession session s)).
Proof.
  intros Hb. unfold resolveUserIdFromSession.
  destruct (trim_or_null (s_email session)) as [e|]; [apply ids_below_upsert; exact Hb|].
  destruct (trim_or_null (s_name session)) as [n|]; [|apply ids_below_upsert; exact Hb].
  unfold ids_below in *.
  unfold find_last_user_by_name, create_user, fresh_id, bind, gets, modify, ret.
  destruct (List.find _ (rev (users s))) as [u|]; simpl; [exact Hb|].
  apply List.Forall_app. split.
  - eapply List.Forall_impl; [|exact Hb]. simpl. intros x Hx. lia.
  - constructor; [simpl; lia|constructor].
Qed.

(** X1: [ensureGuestUserId] is idempotent: run again on the state it
    leaves, it returns the same id and writes nothing (the guest user is
    created at most once). *)
Theorem ensureGuestUserId_idempotent (s : db) :
  ensureGuestUserId (snd (ensureGuestUserId s)) = ensureGuestUserId s.
Proof. apply upsert_idem. left; reflexivity. Qed.

(** X2: in a store whose user ids are all below the id counter (which
    [whoami] and [resolveUserIdFromSession] preserve), running either
    resolver again on the state it left returns the same user id and leaves
    the state exactly as it was: repeated calls create no second user and
    make no further change. *)
Theorem whoami_idempotent (session : Session) (s : db) (Hb : ids_below s) :
  ids_below (snd (whoami session s)) /\
  whoami session (snd (whoami session s)) = whoami session s /\
  ids_below (snd (resolveUserIdFromSession session s)) /\
  resolveUserIdFromSession session (snd (resolveUserIdFromSession session s)) =
    resolveUserIdFromSession session s.
Proof.
  unfold whoami.
  split; [|split; [|split]].
  - destruct (opt_truthy (s_name session));
      [apply ids_below_resolve | apply ids_below_upsert]; exact Hb.
  - destruct (opt_truthy (s_name session));
      [apply resolve_idem; exact Hb | apply upsert_idem; left; reflexivity].
  - apply ids_below_resolve; exact Hb.
  - apply resolve_idem; exact Hb.
Qed.

(** X2, at bob's session on the example store, where bob is created by the
    first call. *)
Lemma whoami_idempotent_witness :
  ids_below db_example /\
  whoami bob (snd (whoami bob db_example)) = whoami bob db_example.
Proof.
  assert (H : ids_below db_example) by (repeat constructor; simpl; lia).
  split; [exact H|]. exact (proj1 (proj2 (whoami_idempotent bob db_example H))).
Defined.

(** *** Users are only ever appended *)

Lemma user_keys_rename (i : nat) (n : string) (us : list User) :
  user_keys (map (rename_user i n) us) = user_keys us.
Proof.
  unfold user_keys. rewrite map_map. apply map_ext. intros u.
  destruct (rename_user_email i n u) as [E1 E2]. rewrite E1, E2. reflexivity.
Qed.

Lemma user_keys_emails (us1 us2 : list User) :
  user_keys us1 = user_keys us2 -> user_emails us1 = user_emails us2.
Proof.
  revert us2. induction us1 as [|u us1 IH]; intros [|v us2]; simpl; try discriminate; [auto|].
  intros H. injection H as _ He Hr. unfold user_emails in *; simpl.
  rewrite He. rewrite (IH us2 Hr). reflexivity.
Qed.

Lemma upsert_appends (e : string) (un cn : option string) (s : db) :
  exists extra, (length extra <= 1)%nat /\
    user_keys (users (snd (upsert_user_by_email e un cn s))) = user_keys (users s ++ extra) /\
    (extra <> [] -> List.find (fun u => opt_eqb (email u) e) (users s) = None /\
                    user_emails extra = [e]).
Proof.
  unfold upsert_user_by_email, find_user_by_email, create_user, fresh_id, bind, gets,
    modify, ret.
  destruct (List.find _ (users s)) as [u|] eqn:F; [destruct un as [n|]|]; simpl.
  - exists []. rewrite app_nil_r, user_keys_rename. split; [simpl; lia|]. split; [reflexivity|].
    intros H; contradiction.
  - exists []. rewrite app_nil_r. split; [simpl; lia|]. split; [reflexivity|].
    intros H; contradiction.
  - eexists. split; [|split; [reflexivity|]]; [simpl; lia|]. intros _. split; reflexivity.
Qed.

Lemma resolve_appends (session : Session) (s : db) :
  exists extra, (length extra <= 1)%nat /\
    user_keys (users (snd (resolveUserIdFromSession session s))) = user_keys (users s ++ extra) /\
    (extra <> [] -> user_emails extra = [] \/
       exists e, List.find (fun u => opt_eqb (email u) e) (users s) = None /\
                 user_emails extra = [e]).
Proof.
  unfold resolveUserIdFromSession.
  destruct (trim_or_null (s_email session)) as [e|].
  { destruct (upsert_appends e (trim_or_null (s_name session)) (trim_or_null (s_name session)) s)
      as (extra & H1 & H2 & H3).
    exists extra. split; [exact H1|]. split; [exact H2|]. intros Hx. right. exists e. auto. }
  destruct (trim_or_null (s_name session)) as [n|].
  2: { destruct (upsert_appends guest_email None (Some "Guest") s) as (extra & H1 & H2 & H3).
       exists extra. split; [exact H1|]. split; [exact H2|]. intros Hx. right.
       exists guest_email. auto. }
  unfold find_last_user_by_name, create_user, fresh_id, bind, gets, modify, ret.
  destruct (List.find _ (rev (users s))) as [u|]; simpl.
  - exists []. rewrite app_nil_r. split; [simpl; lia|]. split; [reflexivity|].
    intros H; contradiction.
  - eexists. split; [|split; [reflexivity|]]; [simpl; lia|]. intros _. left. reflexivity.
Qed.

Lemma whoami_appends (session : Session) (s : db) :
  exists extra, (length extra <= 1)%nat /\
    user_keys (users (snd (whoami session s))) = user_keys (users s ++ extra) /\
    (extra <> [] -> user_emails extra = [] \/
       exists e, List.find (fun u => opt_eqb (email u) e) (users s) = None /\
                 user_emails extra = [e]).
Proof.
  unfold whoami. destruct (opt_truthy (s_name session)); [apply resolve_appends|].
  destruct (upsert_appends guest_email None (Some "Guest") s) as (extra & H1 & H2 & H3).
  exists extra. split; [exact H1|]. split; [exact H2|]. intros Hx. right.
  exists guest_email. auto.
Qed.

(** X3: [whoami] and [resolveUserIdFromSession] never delete a user and
    never change a user's id or email: the users afterwards are the users
    before, in the same order and with the same ids and emails, followed by
    at most one new user. *)
Theorem user_resolution_appends (session : Session) (s : db) :
  (exists extra, (length extra <= 1)%nat /\
     user_keys (users (snd (whoami session s))) = user_keys (users s ++ extra)) /\
  (exists extra, (length extra <= 1)%nat /\
     user_keys (users (snd (resolveUserIdFromSession session s))) =
       user_keys (users s ++ extra)).
Proof.
  split.
  - destruct (whoami_appends session s) as (extra & H1 & H2 & _). eauto.
  - destruct (resolve_appends session s) as (extra & H1 & H2 & _). eauto.
Qed.

(** *** Emails stay unique *)

Lemma user_emails_app (l1 l2 : list User) :
  user_emails (l1 ++ l2) = (user_emails l1 ++ user_emails l2)%list.
Proof. unfold user_emails. apply omap_app. Qed.

Lemma find_none_email (e : string) (us : list User) :
  List.find (fun u => opt_eqb (email u) e) us = None -> e ∉ user_emails us.
Proof.
  intros Hf Hin. apply list_elem_of_omap in Hin as (u & Hu & He).
  apply list_elem_of_In in Hu. pose proof (find_none _ _ Hf u Hu) as H.
  unfold opt_eqb in H. rewrite He, String.eqb_refl in H. discriminate.
Qed.

Lemma emails_nodup_step (us us' extra : list User) :
  NoDup (user_emails us) ->
  user_keys us' = user_keys (us ++ extra) ->
  (extra <> [] -> user_emails extra = [] \/
     exists e, List.find (fun u => opt_eqb (email u) e) us = None /\ user_emails extra = [e]) ->
  NoDup (user_emails us').
Proof.
  intros Hnd Hk Hx. rewrite (user_keys_emails _ _ Hk), user_emails_app.
  destruct extra as [|x r].
  - rewrite app_nil_r. exact Hnd.
  - destruct (Hx ltac:(discriminate)) as [He|(e & Hf & He)]; rewrite He.
    + rewrite app_nil_r. exact Hnd.
    + apply NoDup_app. split; [exact Hnd|]. split; [|apply NoDup_singleton].
      intros y Hy Hy'. apply list_elem_of_singleton in Hy'. subst y.
      exact (find_none_email e us Hf Hy).
Qed.

(** X4: user resolution keeps emails unique: if no two users share an
    email before [whoami] or [resolveUserIdFromSession], none do after.  A
    user is only created with an email that no user has. *)
Theorem user_resolution_emails_unique (session : Session) (s : db)
    (Hnd : NoDup (user_emails (users s))) :
  NoDup (user_emails (users (snd (whoami session s)))) /\
  NoDup (user_emails (users (snd (resolveUserIdFromSession session s)))).
Proof.
  split.
  - destruct (whoami_appends session s) as (extra & _ & H2 & H3).
    exact (emails_nodup_step _ _ _ Hnd H2 H3).
  - destruct (resolve_appends session s) as (extra & _ & H2 & H3).
    exact (emails_nodup_step _ _ _ Hnd H2 H3).
Qed.

(** X4, at bob's session on the example store (alice's email only). *)
Lemma user_resolution_emails_unique_witness :
  NoDup (user_emails (users (snd (whoami bob db_example)))).
Proof.
  assert (H : NoDup (user_emails (users db_example))) by (vm_compute; apply NoDup_singleton).
  exact (proj1 (user_resolution_emails_unique bob db_example H)).
Defined.

(** *** The chat actions write one chat *)

Lemma agrees_off_refl (cid : string) (s : db) : agrees_off cid s s.
Proof. split; [reflexivity|]. intros; reflexivity. Qed.

Lemma agrees_off_trans (cid : string) (s1 s2 s3 : db) :
  agrees_off cid s1 s2 -> agrees_off cid s2 s3 -> agrees_off cid s1 s3.
Proof.
  intros [P1 C1] [P2 C2]. split; [congruence|]. intros j Hj. rewrite C2, C1; auto.
Qed.

Lemma cl_ret {A} (cid : string) (a : A) : chat_local cid (ret a).
Proof. intros s. apply agrees_off_refl. Qed.

Lemma cl_users_only {A} (cid : string) (m : M A) : users_only m -> chat_local cid m.
Proof.
  intros H s. destruct (users_only_state m s H) as (Hc & Hp & _).
  split; [exact Hp|]. intros j _. rewrite Hc. reflexivity.
Qed.

Lemma cl_gets {A} (cid : string) (f : db -> A) : chat_local cid (gets f).
Proof. intros s. apply agrees_off_refl. Qed.

Lemma cl_throw {A} (cid : string) (e : string) : chat_local cid (@throw A e).
Proof. intros s. apply agrees_off_refl. Qed.

Lemma cl_bind {A B} (cid : string) (m : M A) (k : A -> M B) :
  chat_local cid m -> (forall a, chat_local cid (k a)) -> chat_local cid (bind m k).
Proof.
  intros Hm Hk s. specialize (Hm s). unfold bind.
  destruct (m s) as [[a|e] s1]; simpl in Hm |- *; [|exact Hm].
  eapply agrees_off_trans; [exact Hm|]. apply Hk.
Qed.

Lemma cl_transaction {A} (cid : string) (m : M A) :
  chat_local cid m -> chat_local cid (transaction m).
Proof.
  intros Hm s. specialize (Hm s). unfold transaction.
  destruct (m s) as [[a|e] s1]; simpl in Hm |- *; [exact Hm|apply agrees_off_refl].
Qed.

Lemma cl_update_chat (cid : string) (f : Chat -> Chat) : chat_local cid (update_chat cid f).
Proof.
  intros s. unfold update_chat. destruct (chats s !! cid); simpl; [|apply agrees_off_refl].
  split; [reflexivity|]. intros j Hj. apply lookup_insert_ne. congruence.
Qed.

Lemma cl_assertOwnChat (cid : string) (uid : nat) : chat_local cid (assertOwnChat cid uid).
Proof.
  unfold assertOwnChat, find_chat. apply cl_bind; [apply cl_gets|].
  intros [c|]; [destruct (Nat.eqb (userId c) uid)|]; [apply cl_ret|apply cl_throw|apply cl_throw].
Qed.

(** X6: [appendTurn], [saveChatSnapshot], [renameChat] and [deleteChat] on
    chat [cid] write no other chat and no pathway, whatever their outcome:
    afterwards every chat id other than [cid] maps to the row it mapped to
    before, and the pathway rows are unchanged. *)
Theorem chat_actions_local (session : Session) (cid : string) :
  (forall userMsg aiMsg roadmap uiPatch,
     chat_local cid (appendTurn session cid userMsg aiMsg roadmap uiPatch)) /\
  (forall msgs roadmap titleFallback,
     chat_local cid (saveChatSnapshot session cid msgs roadmap titleFallback)) /\
  (forall t, chat_local cid (renameChat session cid t)) /\
  chat_local cid (deleteChat session cid).
Proof.
  split; [|split; [|split]].
  - intros um am rm up. unfold appendTurn.
    apply cl_bind; [apply cl_users_only, users_only_whoami|]. intros uid.
    apply cl_bind; [apply cl_assertOwnChat|]. intros _.
    apply cl_bind; [|intros _; apply cl_ret].
    apply cl_transaction. unfold find_chat.
    apply cl_bind; [apply cl_gets|]. intros oc.
    apply cl_bind; [apply cl_gets|]. intros t.
    apply cl_update_chat.
  - intros msgs rm tf. unfold saveChatSnapshot.
    apply cl_bind; [apply cl_users_only, users_only_resolve|]. intros uid.
    unfold find_chat. apply cl_bind; [apply cl_gets|].
    intros [c|]; [destruct (Nat.eqb (userId c) uid)|]; [|apply cl_ret|apply cl_ret].
    apply cl_bind; [apply cl_update_chat|]. intros _. apply cl_ret.
  - intros t. unfold renameChat.
    apply cl_bind; [apply cl_users_only, users_only_whoami|]. intros uid.
    apply cl_bind; [apply cl_assertOwnChat|]. intros _.
    apply cl_bind; [apply cl_update_chat|]. intros _. apply cl_ret.
  - unfold deleteChat.
    apply cl_bind; [apply cl_users_only, users_only_whoami|]. intros uid.
    apply cl_bind; [apply cl_assertOwnChat|]. intros _.
    apply cl_bind; [apply cl_gets|]. intros t.
    apply cl_bind; [apply cl_update_chat|]. intros _. apply cl_ret.
Qed.

(** *** Renaming a chat *)

(** X7: renaming a chat the caller owns (as [whoami] resolves them)
    succeeds, and a [getChatSnapshot] right after returns the chat with the
    new title and its messages, roadmap and start time unchanged. *)
Theorem renameChat_then_snapshot (session : Session) (s : db) (cid : string) (c : Chat)
    (t : string)
    (Hw : fst (whoami session s) = Ok (userId c)) (Hc : chats s !! cid = Some c) :
  let m := match meta c with Some m => m | None => empty_meta end in
  fst (renameChat session cid t s) = Ok ResultOk /\
  exists snap, fst (getChatSnapshot session cid (snd (renameChat session cid t s))) = Ok snap /\
    snap_id snap = cid /\ snap_title snap = Some t /\
    snap_messages snap = match messages m with Some l => l | None => [] end /\
    snap_roadmap snap = match meta_roadmap m with Some r => r | None => JNull end /\
    snap_startedAt snap = startedAt c.
Proof.
  cbv zeta.
  destruct (users_only_state _ s (users_only_whoami session)) as (Hch & _ & _).
  assert (Hr : renameChat session cid t s =
               (Ok ResultOk, set_chats (<[cid := with_title (Some t) c]> (chats s))
                                       (snd (whoami session s)))).
  { unfold renameChat, assertOwnChat, find_chat, update_chat, bind, gets, ret.
    destruct (whoami session s) as [o s1]. simpl in Hw, Hch |- *. subst o.
    rewrite Hch, Hc, Nat.eqb_refl. simpl. rewrite Hch, Hc. reflexivity. }
  rewrite Hr. split; [reflexivity|]. simpl snd.
  assert (Hw2 : fst (whoami session (set_chats (<[cid := with_title (Some t) c]> (chats s))
                                               (snd (whoami session s)))) =
                Ok (userId (with_title (Some t) c))).
  { rewrite (whoami_again session s); [exact Hw|reflexivity]. }
  rewrite (getChatSnapshot_owned session _ cid (with_title (Some t) c) Hw2).
  - eexists. split; [reflexivity|]. repeat split.
  - simpl. apply lookup_insert_eq.
Qed.

(** X7, at alice's session and her chat "c1". *)
Lemma renameChat_then_snapshot_witness :
  fst (whoami alice db_example) = Ok (userId chat_example) /\
  chats db_example !! "c1" = Some chat_example /\
  fst (renameChat alice "c1" "Graphs" db_example) = Ok ResultOk.
Proof.
  assert (Hw : fst (whoami alice db_example) = Ok (userId chat_example)) by reflexivity.
  assert (Hc : chats db_example !! "c1" = Some chat_example) by reflexivity.
  split; [exact Hw|]. split; [exact Hc|].
  exact (proj1 (renameChat_then_snapshot alice db_example "c1" chat_example "Graphs" Hw Hc)).
Defined.

(** *** Pathway rows stay one per chat *)

Lemma pathway_chats_map_update (i : nat) (t : option string) (st : option PathwayStatus)
    (plan : json) (ps : list Pathway) :
  pathway_chats (map (update_pathway i t st plan) ps) = pathway_chats ps.
Proof.
  unfold pathway_chats. rewrite map_map. apply map_ext. intros p.
  apply update_pathway_chatId.
Qed.

Lemma find_pathway_none (cid : string) (ps : list Pathway) :
  List.find (fun p => String.eqb (chatId p) cid) ps = None -> cid ∉ pathway_chats ps.
Proof.
  intros Hf Hin. apply list_elem_of_In, in_map_iff in Hin as (p & Hp & Hin).
  pose proof (find_none _ _ Hf p Hin) as H. simpl in H.
  rewrite Hp, String.eqb_refl in H. discriminate.
Qed.

(** X8: [savePlanAsPathway] never writes a chat, and it keeps the pathway
    rows one per chat: if no two rows share a chat id before, none do
    after. *)
Theorem savePlanAsPathway_one_row_per_chat (session : Session) (s : db) (cid : string)
    (plan : json) (t : option string) (st : option PathwayStatus) :
  chats (snd (savePlanAsPathway session cid plan t st s)) = chats s /\
  (NoDup (pathway_chats (pathways s)) ->
   NoDup (pathway_chats (pathways (snd (savePlanAsPathway session cid plan t st s))))).
Proof.
  destruct (users_only_state _ s (users_only_pathway_user_id session)) as (Hch & Hps & _).
  unfold savePlanAsPathway, find_chat, find_pathway, fresh_id, bind, gets, modify, ret.
  destruct (pathway_user_id session s) as [[ou|e] s1]; simpl in Hch, Hps |- *;
    [|split; [exact Hch|simpl; rewrite ?Hps; auto]].
  rewrite Hch.
  destruct (chats s !! cid) as [c|]; [|split; [exact Hch|simpl; rewrite ?Hps; auto]].
  destruct ou as [u|]; [|split; [exact Hch|simpl; rewrite ?Hps; auto]].
  destruct (Nat.eqb (userId c) u); simpl; [|split; [exact Hch|simpl; rewrite ?Hps; auto]].
  rewrite Hps.
  destruct (List.find _ (pathways s)) as [p|] eqn:F; simpl.
  - split; [exact Hch|]. rewrite Hps, pathway_chats_map_update. auto.
  - split; [exact Hch|]. rewrite Hps. intros Hnd.
    unfold pathway_chats. rewrite map_app. simpl.
    apply NoDup_app. split; [exact Hnd|]. split; [|apply NoDup_singleton].
    intros y Hy Hy'. apply list_elem_of_singleton in Hy'. subst y.
    exact (find_pathway_none cid _ F Hy).
Qed.

(** *** Creating a chat *)

Lemma listChats_ok (session : Session) (s : db) :
  exists items, fst (listChats session s) = Ok items.
Proof.
  destruct (whoami_ok session s) as [uid Hw]. unfold listChats, bind, gets.
  destruct (whoami session s) as [o s1]. simpl in Hw. subst o. eexists. reflexivity.
Qed.

(** the row [createChat] writes *)
Lemma createChat_row (session : Session) (s : db) (newId : string) (t : option string)
    (im : option (list ChatMessage)) (ir : option json) (uid : nat) :
  fst (whoami session s) = Ok uid -> chats s !! newId = None ->
  createChat session newId t im ir s =
    (Ok newId,
     set_chats (<[newId :=
       {| userId := uid; title := t;
          meta := Some {| messages := Some (match im with Some l => l | None => [] end);
                          meta_roadmap := Some (match ir with Some r => r | None => JNull end);
                          ui := None;
                          events := Some [{| ev_type := "createChat"; ts := now s;
                                             ev_data := None |}] |};
          deletedAt := None; startedAt := now s; updatedAt := now s |}]> (chats s))
       (snd (whoami session s))).
Proof.
  intros Hw Hf.
  destruct (users_only_state _ s (users_only_whoami session)) as (Hch & _ & Hnow).
  unfold createChat, create_chat, bind, gets, ret.
  destruct (whoami session s) as [o s1]. simpl in Hw, Hch, Hnow |- *. subst o.
  rewrite Hch, Hf, Hnow. reflexivity.
Qed.

(** X9: [createChat] at an id no chat has succeeds with that id and adds
    one chat, owned by the caller as [whoami] resolves them, and no other
    chat changes.  A [getChatSnapshot] right after returns the given title,
    the initial messages (default: none) and the initial roadmap (default:
    [null]), with both timestamps at the creation time, and [listChats]
    lists the new chat. *)
Theorem createChat_then_read (session : Session) (s : db) (newId : string)
    (t : option string) (im : option (list ChatMessage)) (ir : option json)
    (Hf : chats s !! newId = None) :
  fst (createChat session newId t im ir s) = Ok newId /\
  (forall j, j <> newId -> chats (snd (createChat session newId t im ir s)) !! j = chats s !! j) /\
  fst (getChatSnapshot session newId (snd (createChat session newId t im ir s))) =
    Ok {| snap_id := newId; snap_title := t;
          snap_messages := match im with Some l => l | None => [] end;
          snap_roadmap := match ir with Some r => r | None => JNull end;
          snap_updatedAt := now s; snap_startedAt := now s |} /\
  exists items, fst (listChats session (snd (createChat session newId t im ir s))) = Ok items /\
    exists it, In it items /\ item_id it = newId.
Proof.
  destruct (whoami_ok session s) as [uid Hw].
  rewrite (createChat_row session s newId t im ir uid Hw Hf).
  set (c := {| userId := uid; title := t;
               meta := Some {| messages := Some (match im with Some l => l | None => [] end);
                               meta_roadmap := Some (match ir with Some r => r | None => JNull end);
                               ui := None;
                               events := Some [{| ev_type := "createChat"; ts := now s;
                                                  ev_data := None |}] |};
               deletedAt := None; startedAt := now s; updatedAt := now s |}).
  destruct (users_only_state _ s (users_only_whoami session)) as (Hch & _ & _).
  set (s2 := set_chats (<[newId := c]> (chats s)) (snd (whoami session s))).
  assert (Hw2 : fst (whoami session s2) = Ok (userId c)).
  { rewrite (whoami_again session s); [exact Hw|reflexivity]. }
  assert (Hc2 : chats s2 !! newId = Some c) by apply lookup_insert_eq.
  simpl fst; simpl snd.
  split; [reflexivity|]. split.
  { intros j Hj. apply lookup_insert_ne. congruence. }
  split.
  - rewrite (getChatSnapshot_owned session s2 newId c Hw2 Hc2). reflexivity.
  - destruct (listChats_ok session s2) as [items Hl]. exists items. split; [exact Hl|].
    exact (listChats_live session s2 newId c items Hc2 eq_refl Hw2 Hl).
Qed.

(** X9, at bob's session with a new chat "c2" on the example store. *)
Lemma createChat_then_read_witness :
  chats db_example !! "c2" = None /\
  fst (createChat bob "c2" (Some "BFS") None None db_example) = Ok "c2".
Proof.
  assert (Hf : chats db_example !! "c2" = None) by reflexivity.
  split; [exact Hf|].
  exact (proj1 (createChat_then_read bob db_example "c2" (Some "BFS") None None Hf)).
Defined.

(** *** Starting a chat from the chat list page *)

(** X10: [start] on the chat list page creates the chat (at an id no chat
    has) and navigates to [/chat/<id>].  The chat's title is the typed
    title trimmed, or ["New Chat"] when that is blank, so it is never blank
    and has no surrounding white space; the chat starts with no messages
    and a [null] roadmap. *)
Theorem StartChatPage_start_title (session : Session) (s : db) (newId : string)
    (input_title : string) (Hf : chats s !! newId = None) :
  fst (StartChatPage_start session newId input_title s) = Ok ("/chat/" ++ newId) /\
  exists c, chats (snd (StartChatPage_start session newId input_title s)) !! newId = Some c /\
    title c = Some (start_title input_title) /\
    str_truthy (start_title input_title) = true /\
    trim (start_title input_title) = start_title input_title /\
    (str_truthy (trim input_title) = true -> start_title input_title = trim input_title) /\
    (str_truthy (trim input_title) = false -> start_title input_title = "New Chat") /\
    meta c = Some {| messages := Some []; meta_roadmap := Some JNull; ui := None;
                     events := Some [{| ev_type := "createChat"; ts := now s;
                                        ev_data := None |}] |}.
Proof.
  destruct (whoami_ok session s) as [uid Hw].
  unfold StartChatPage_start, bind.
  rewrite (createChat_row session s newId _ _ _ uid Hw Hf). simpl.
  split; [reflexivity|]. eexists. split; [apply lookup_insert_eq|]. simpl.
  split; [reflexivity|].
  unfold start_title. destruct (str_truthy (trim input_title)) eqn:E.
  - split; [exact E|]. split; [apply trim_idem|]. split; [reflexivity|].
    split; [discriminate|reflexivity].
  - split; [reflexivity|]. split; [reflexivity|]. split; [discriminate|].
    split; reflexivity.
Qed.

(** X10, at bob's session with a blank title (spaces only). *)
Lemma StartChatPage_start_title_witness :
  chats db_example !! "c2" = None /\
  fst (StartChatPage_start bob "c2" "   " db_example) = Ok "/chat/c2".
Proof.
  assert (Hf : chats db_example !! "c2" = None) by reflexivity.
  split; [exact Hf|].
  exact (proj1 (StartChatPage_start_title bob db_example "c2" "   " Hf)).
Defined.

(** ** Theorems: the chat input handlers *)

(** X11: whatever the user types and sends in [Chatwindow], the message
    list only grows at the end, by at most one message per send, and every
    message added is a ["user"] message whose text is not blank; the text
    is stored as typed, without trimming. *)
Theorem Chatwindow_only_appends_user_text (st : CwState) (evs : list cw_event) :
  exists added, cw_messages (cw_run st evs) = (cw_messages st ++ added)%list /\
    Forall (fun m => role m = "user" /\ str_truthy (trim (text m)) = true) added /\
    (length added <= length (List.filter is_send evs))%nat.
Proof.
  unfold cw_run. revert st. induction evs as [|e evs IH]; intros st; simpl.
  - exists []. rewrite app_nil_r. split; [reflexivity|]. split; [constructor|]. simpl; lia.
  - destruct (IH (cw_step st e)) as (added & H1 & H2 & H3). destruct e as [v|]; simpl in H1, H3 |- *.
    + exists added. auto.
    + unfold Chatwindow_handleSend in H1 |- *.
      destruct (str_truthy (trim (cw_input st))) eqn:E; simpl in H1 |- *.
      * exists ({| role := "user"; text := cw_input st |} :: added).
        rewrite H1, <- app_assoc. split; [reflexivity|]. split; [constructor; auto|].
        simpl; lia.
      * exists added. split; [exact H1|]. split; [exact H2|]. lia.
Qed.

Lemma positions_snoc (ms : list DashMessage) (m : DashMessage) :
  ids_are_positions ms -> dm_id m = (Z.of_nat (length ms) + 1)%Z ->
  ids_are_positions (ms ++ [m]).
Proof.
  unfold ids_are_positions. intros H Hm.
  rewrite map_app, H, length_app. simpl. rewrite Nat.add_1_r, seq_S, map_app. simpl.
  rewrite Hm. repeat f_equal. lia.
Qed.

Lemma dash_round (st : DashState) (v : string) :
  ids_are_positions (d_messages st) -> d_timers st = [] ->
  ids_are_positions (d_messages (dash_run st [DashType v; DashSend; DashTimer])) /\
  d_timers (dash_run st [DashType v; DashSend; DashTimer]) = [].
Proof.
  intros Hp Ht. simpl. unfold Dashboard_handleSendMessage. simpl.
  destruct (str_truthy (trim v)) eqn:E; simpl.
  - unfold dash_fire. simpl. rewrite Ht. simpl. split; [|reflexivity].
    rewrite <- app_assoc. simpl.
    change [{| dm_id := Z.of_nat (length (d_messages st)) + 1; dm_type := "user"; dm_content := v |};
            {| dm_id := Z.of_nat (length (d_messages st)) + 2; dm_type := "ai";
               dm_content := dash_reply_text |}]
      with ([{| dm_id := Z.of_nat (length (d_messages st)) + 1; dm_type := "user"; dm_content := v |}] ++
            [{| dm_id := Z.of_nat (length (d_messages st)) + 2; dm_type := "ai";
                dm_content := dash_reply_text |}])%list.
    rewrite app_assoc. apply positions_snoc; [apply positions_snoc; [exact Hp|reflexivity]|].
    rewrite length_app. simpl. lia.
  - unfold dash_fire. simpl. rewrite Ht. simpl. auto.
Qed.

(** X12: starting from its initial state, the dashboard chat numbers its
    messages 1, 2, 3, ... in order as long as each reply arrives before the
    next message is sent (blank sends included): the ids are exactly the
    positions and no reply is left pending. *)
Theorem Dashboard_ids_sequential (vs : list string) :
  ids_are_positions (d_messages (dash_run Dashboard_init (dash_rounds vs))) /\
  d_timers (dash_run Dashboard_init (dash_rounds vs)) = [].
Proof.
  assert (H : forall st, ids_are_positions (d_messages st) -> d_timers st = [] ->
            ids_are_positions (d_messages (dash_run st (dash_rounds vs))) /\
            d_timers (dash_run st (dash_rounds vs)) = []).
  { induction vs as [|v vs IH]; intros st Hp Ht; [auto|].
    change (dash_rounds (v :: vs)) with ([DashType v; DashSend; DashTimer] ++ dash_rounds vs)%list.
    unfold dash_run at 1 2. rewrite !fold_left_app.
    destruct (dash_round st v Hp Ht) as [Hp' Ht']. apply IH; assumption. }
  apply H; reflexivity.
Qed.

(** X13: when a second message is sent before the first reply arrives,
    the dashboard gives two messages the same id: both ids of a send are
    computed from the message count when it is sent, so the second user
    message and the first reply both get id 3. *)
Theorem Dashboard_duplicate_ids (u v : string)
    (Hu : str_truthy (trim u) = true) (Hv : str_truthy (trim v) = true) :
  map dm_id (d_messages (dash_run Dashboard_init
                           [DashType u; DashSend; DashType v; DashSend; DashTimer; DashTimer]))
    = [1; 2; 3; 3; 4]%Z /\
  ~ NoDup (map dm_id (d_messages (dash_run Dashboard_init
                           [DashType u; DashSend; DashType v; DashSend; DashTimer; DashTimer]))).
Proof.
  assert (E : map dm_id (d_messages (dash_run Dashboard_init
                           [DashType u; DashSend; DashType v; DashSend; DashTimer; DashTimer]))
              = [1; 2; 3; 3; 4]%Z).
  { simpl. unfold Dashboard_handleSendMessage. simpl. rewrite Hu. simpl. rewrite Hv. reflexivity. }
  split; [exact E|]. rewrite E. intros H.
  apply NoDup_cons in H as [_ H]. apply NoDup_cons in H as [_ H].
  apply NoDup_cons in H as [H _]. apply H. apply list_elem_of_here.
Qed.

(** X13, at the texts "hi" and "bye". *)
Lemma Dashboard_duplicate_ids_witness :
  str_truthy (trim "hi") = true /\ str_truthy (trim "bye") = true /\
  ~ NoDup (map dm_id (d_messages (dash_run Dashboard_init
             [DashType "hi"; DashSend; DashType "bye"; DashSend; DashTimer; DashTimer]))).
Proof.
  assert (Hu : str_truthy (trim "hi") = true) by reflexivity.
  assert (Hv : str_truthy (trim "bye") = true) by reflexivity.
  split; [exact Hu|]. split; [exact Hv|].
  exact (proj2 (Dashboard_duplicate_ids "hi" "bye" Hu Hv)).
Defined.

(** X14: on the chat page, [handleSend] does nothing when the trimmed
    input is blank.  Otherwise it clears the input and the typing flag and
    appends exactly two messages: a ["user"] message with the trimmed
    input (which is also what is sent to the backend), then an ["ai"]
    message.  On a reply, the AI message is the reply and the roadmap
    panel is replaced by what [tryExtractRoadmapFromText] finds in it, so
    a reply with no [\[] clears a roadmap shown before.  When the backend
    call fails, the AI message is ["Could not reach server: "] followed by
    the error's message (default ["Unknown error"]), and the panel is
    kept. *)
Theorem chat_page_handleSend_effect (parse : string -> option json)
    (callBackend : string -> backend_result) (userMsgId aiMsgId : string) (t1 t2 : Z)
    (st : PageState) :
  let after := chat_page_handleSend parse callBackend userMsgId aiMsgId t1 t2 st in
  let content0 := trim (p_current st) in
  (str_truthy content0 = false -> after = st) /\
  (str_truthy content0 = true ->
   p_current after = EmptyString /\ p_typing after = false /\
   exists aiMsg,
     p_messages after =
       (p_messages st ++ [{| msg_id := userMsgId; msg_type := "user"; content := content0;
                             timestamp := t1 |}; aiMsg])%list /\
     msg_type aiMsg = "ai" /\
     match callBackend content0 with
     | backend_reply r =>
         content aiMsg = r /\ p_roadmap after = tryExtractRoadmapFromText parse r /\
         (first_occurrence "[" r = None -> p_roadmap after = None)
     | backend_error e =>
         content aiMsg = "Could not reach server: " ++
                         match e with Some m => m | None => "Unknown error" end /\
         p_roadmap after = p_roadmap st
     end).
Proof.
  cbv zeta. unfold chat_page_handleSend.
  destruct (str_truthy (trim (p_current st))) eqn:E; simpl.
  - split; [discriminate|]. intros _. split; [|split].
    + destruct (callBackend (trim (p_current st))); reflexivity.
    + destruct (callBackend (trim (p_current st))); reflexivity.
    + destruct (callBackend (trim (p_current st))) as [r|e].
      * eexists. split; [reflexivity|]. split; [reflexivity|]. split; [reflexivity|].
        split; [reflexivity|]. intros Hn. simpl.
        rewrite tryExtract_bracket_span. unfold bracket_span. rewrite Hn. reflexivity.
      * eexists. split; [reflexivity|]. split; [reflexivity|]. split; reflexivity.
  - split; [reflexivity|]. discriminate.
Qed.

(** ** Theorems: decoding the chat list *)

Lemma normalize_row_fields (D : Type) (decodeDate : option json -> D) (c : json)
    (r : ChatRow D) :
  normalize_row D decodeDate c = Some r ->
  row_id r = js_get c "id" /\
  row_title r = match js_get c "title" with Some v => v | None => JNull end /\
  row_startedAt r = decodeDate (js_get c "startedAt") /\
  row_updatedAt r = decodeDate (js_get c "updatedAt").
Proof.
  destruct c; simpl; try discriminate; intros H; injection H as <-; simpl;
    (split; [reflexivity|]); (split; [|split; reflexivity]);
    match goal with |- context [obj_lookup "title" ?fs] =>
      destruct (obj_lookup "title" fs) as [[]|]; reflexivity
    | _ => reflexivity end.
Qed.

Lemma normalize_row_none (D : Type) (decodeDate : option json -> D) (c : json) :
  normalize_row D decodeDate c = None <-> c = JNull.
Proof. destruct c; simpl; split; congruence. Qed.

(** X15: for a payload with an [items] array (the shape [listChats]
    returns), [normalizeChats] gives one row per item, in order, with the
    item's [id], its [title] ([null] when absent) and its decoded dates;
    a [null] item makes it throw. *)
Theorem normalizeChats_items (D : Type) (decodeDate : option json -> D) (payload : json)
    (l : list json) (Hi : js_get payload "items" = Some (JArr l)) :
  (Forall (fun c => c <> JNull) l ->
   exists rows, normalizeChats D decodeDate payload = Some rows /\
     Forall2 (fun c r => row_id r = js_get c "id" /\
                         row_title r = match js_get c "title" with Some v => v | None => JNull end /\
                         row_startedAt r = decodeDate (js_get c "startedAt") /\
                         row_updatedAt r = decodeDate (js_get c "updatedAt")) l rows) /\
  (In JNull l -> normalizeChats D decodeDate payload = None).
Proof.
  assert (Hr : raw_list payload = JArr l).
  { destruct payload; try discriminate. unfold raw_list. simpl. simpl in Hi. rewrite Hi.
    reflexivity. }
  unfold normalizeChats. rewrite Hr. split.
  - intros Hn. destruct (mapM (normalize_row D decodeDate) l) as [rows|] eqn:M.
    + exists rows. split; [reflexivity|]. apply mapM_Some in M.
      eapply Forall2_impl; [exact M|]. intros c r. apply normalize_row_fields.
    + exfalso. apply mapM_None, List.Exists_exists in M as (c & Hc & Hc').
      apply normalize_row_none in Hc'. subst c.
      exact (proj1 (List.Forall_forall _ _) Hn JNull Hc eq_refl).
  - intros Hin. apply mapM_None, List.Exists_exists. exists JNull. split; [exact Hin|reflexivity].
Qed.

(** X15, at [{ ok: true, items: [{ id: "c1" }] }] with dates decoded to
    [tt]. *)
Lemma normalizeChats_items_witness :
  js_get (JObj [("ok", JBool true); ("items", JArr [JObj [("id", JStr "c1")]])]) "items"
    = Some (JArr [JObj [("id", JStr "c1")]]) /\
  exists rows, normalizeChats unit (fun _ => tt)
                 (JObj [("ok", JBool true); ("items", JArr [JObj [("id", JStr "c1")]])])
               = Some rows.
Proof.
  assert (Hi : js_get (JObj [("ok", JBool true); ("items", JArr [JObj [("id", JStr "c1")]])])
                 "items" = Some (JArr [JObj [("id", JStr "c1")]])) by reflexivity.
  split; [exact Hi|].
  destruct (proj1 (normalizeChats_items unit (fun _ => tt) _ _ Hi)
              ltac:(repeat constructor; discriminate)) as (rows & H & _).
  exists rows. exact H.
Defined.

(** X16: the fallbacks of [normalizeChats].  A payload that is neither an
    array nor an object with an [items] array gives no rows.  For an array
    payload, the rows come from its second element: none when that is
    missing or falsy, one per element when it is an array, and a throw
    when it is any other truthy value. *)
Theorem normalizeChats_fallbacks (D : Type) (decodeDate : option json -> D) :
  (forall payload, (forall k, payload <> JArr k) ->
   (forall k, js_get payload "items" <> Some (JArr k)) ->
   normalizeChats D decodeDate payload = Some []) /\
  (forall l, (nth_error l 1 = None \/ exists v, nth_error l 1 = Some v /\ js_truthy v = false) ->
   normalizeChats D decodeDate (JArr l) = Some []) /\
  (forall l k, nth_error l 1 = Some (JArr k) ->
   normalizeChats D decodeDate (JArr l) = mapM (normalize_row D decodeDate) k) /\
  (forall l v, nth_error l 1 = Some v -> js_truthy v = true -> (forall k, v <> JArr k) ->
   normalizeChats D decodeDate (JArr l) = None).
Proof.
  split; [|split; [|split]].
  - intros payload Ha Hi. unfold normalizeChats, raw_list.
    destruct (if js_truthy payload then js_get payload "items" else None) as [[]|] eqn:E;
      try (destruct payload; [| | | |exfalso; eapply Ha; reflexivity|]; reflexivity).
    destruct (js_truthy payload); [|discriminate]. exfalso. eapply Hi. exact E.
  - intros l [H|(v & H & Hv)]; unfold normalizeChats, raw_list; cbn [js_truthy js_get]; rewrite H;
      [reflexivity|rewrite Hv; reflexivity].
  - intros l k H. unfold normalizeChats, raw_list; cbn [js_truthy js_get]. rewrite H. reflexivity.
  - intros l v H Hv Hk. unfold normalizeChats, raw_list; cbn [js_truthy js_get]. rewrite H, Hv.
    destruct v; try reflexivity. exfalso. eapply Hk. reflexivity.
Qed.

(** ** Theorems: the roadmap graph *)

Lemma string_of_uint_nat (n : nat) :
  option_map Nat.of_uint
    (DecimalString.NilZero.uint_of_string
       (DecimalString.NilZero.string_of_uint (Nat.to_uint n))) = Some n.
Proof.
  rewrite <- (DecimalNat.Unsigned.of_to n) at 2.
  destruct (Nat.to_uint n) eqn:E; try reflexivity;
    rewrite DecimalString.NilZero.usu by discriminate; reflexivity.
Qed.

Lemma topic_id_inj (i j : nat) : topic_id i = topic_id j -> i = j.
Proof.
  unfold topic_id; intros H.
  assert (E : DecimalString.NilZero.string_of_uint (Nat.to_uint i) =
              DecimalString.NilZero.string_of_uint (Nat.to_uint j)).
  { simpl in H. repeat (injection H as H). exact H. }
  pose proof (string_of_uint_nat i) as Hi. pose proof (string_of_uint_nat j) as Hj.
  rewrite E in Hi. rewrite Hi in Hj. congruence.
Qed.

Lemma topic_ids_nodup (a n : nat) : NoDup (map topic_id (seq a n)).
Proof.
  revert a; induction n as [|n IH]; intros a; simpl; [constructor|].
  apply NoDup_cons; split; [|apply IH].
  rewrite list_elem_of_In, in_map_iff. intros (k & Hk & Hin).
  apply topic_id_inj in Hk. apply in_seq in Hin. lia.
Qed.

Lemma roadmap_graph_nodes_from (i : nat) (rm : list json) :
  map node_id (fst (roadmap_graph_from i rm)) = map topic_id (seq i (length rm)) /\
  map node_label (fst (roadmap_graph_from i rm)) = map (fun t => js_get t "name") rm /\
  map node_index (fst (roadmap_graph_from i rm)) = seq i (length rm) /\
  map node_x (fst (roadmap_graph_from i rm)) =
    map (fun k => 100 + Z.of_nat k * 180)%Z (seq i (length rm)) /\
  Forall (fun nd => node_y nd = 100%Z) (fst (roadmap_graph_from i rm)).
Proof.
  revert i; induction rm as [|t rest IH]; intros i; simpl; [repeat split; constructor|].
  destruct (IH (S i)) as (H1 & H2 & H3 & H4 & H5).
  destruct (roadmap_graph_from (S i) rest) as [n l]; simpl in *.
  rewrite H1, H2, H3, H4. repeat split; constructor; auto.
Qed.

Lemma roadmap_graph_links_from (i : nat) (rm : list json) :
  0 < i ->
  snd (roadmap_graph_from i rm) =
    map (fun k => {| source := topic_id k; target := topic_id (S k) |}) (seq (i - 1) (length rm)).
Proof.
  revert i; induction rm as [|t rest IH]; intros i Hi; simpl; [reflexivity|].
  pose proof (IH (S i) ltac:(lia)) as H.
  destruct (roadmap_graph_from (S i) rest) as [n l]; simpl in *.
  rewrite H. destruct (Nat.ltb_spec 0 i); [|lia].
  replace (S (i - 1)) with i by lia. replace (i - 0) with i by lia. reflexivity.
Qed.

(** X17: [InteractiveRoadmap]'s graph has one node per topic, in order: node [i] has
    the id [topic_i], the topic's [name] as its label, index [i], [x = 100 + 180 i]
    and [y = 100]; the node ids are pairwise distinct; the links are exactly the
    chain [topic_k -> topic_(k+1)] for consecutive topics, so every link joins two
    existing nodes. *)
Theorem roadmap_graph_chain (rm : list json) :
  let '(nodes, links) := roadmap_graph rm in
  map node_id nodes = map topic_id (seq 0 (length rm)) /\
  map node_label nodes = map (fun t => js_get t "name") rm /\
  map node_index nodes = seq 0 (length rm) /\
  map node_x nodes = map (fun k => 100 + Z.of_nat k * 180)%Z (seq 0 (length rm)) /\
  Forall (fun nd => node_y nd = 100%Z) nodes /\
  NoDup (map node_id nodes) /\
  links = map (fun k => {| source := topic_id k; target := topic_id (S k) |})
            (seq 0 (length rm - 1)) /\
  Forall (fun lk => source lk ∈ map node_id nodes /\ target lk ∈ map node_id nodes) links.
Proof.
  destruct (roadmap_graph_nodes_from 0 rm) as (H1 & H2 & H3 & H4 & H5).
  assert (Hl : snd (roadmap_graph rm) =
    map (fun k => {| source := topic_id k; target := topic_id (S k) |}) (seq 0 (length rm - 1))).
  { unfold roadmap_graph. destruct rm as [|t rest]; [reflexivity|]. simpl.
    pose proof (roadmap_graph_links_from 1 rest ltac:(lia)) as H.
    destruct (roadmap_graph_from 1 rest) as [n l]; simpl in *. rewrite H.
    replace (length rest - 0) with (length rest) by lia. reflexivity. }
  unfold roadmap_graph in *. destruct (roadmap_graph_from 0 rm) as [nodes links]; simpl in *.
  rewrite H1. repeat split; auto; [apply topic_ids_nodup|].
  rewrite Hl. apply List.Forall_map, List.Forall_forall. intros k Hk. apply in_seq in Hk.
  simpl. rewrite !list_elem_of_In, !in_map_iff. split.
  - exists k. split; [reflexivity|]. apply in_seq. lia.
  - exists (S k). split; [reflexivity|]. apply in_seq. lia.
Qed.
